(** * Snapshot extraction scripts: a shallow embedding and its properties

    The two scripts [extract_snapshots.py] and [list_ebs_snapshots.py]
    enumerate AWS snapshots through paginated client calls, normalise each
    item to a (name, created) record, sort the records and write them as
    tab-separated lines.

    Modelling conventions.
    - A Python [str] is represented by its UTF-8 byte sequence, a Rocq
      [string].  UTF-8 preserves equality, concatenation, emptiness and the
      code-point order used by [str] comparison, and it is what
      [open(..., encoding="utf-8")] writes.  Newlines are written as they
      are (POSIX text mode).
    - A [datetime] is an aware datetime, as botocore's response parsers
      build them: the civil fields plus the offset its tzinfo reports.
      Arithmetic follows the [datetime] module: ordinals of the proleptic
      Gregorian calendar, [OverflowError] outside the years 1 to 9999.
      [strftime] is the one of CPython on Linux, which hands the format
      to the C library: [%Y] is the decimal year without padding, so a
      year below 1000 takes fewer than four characters; the other fields
      take two digits each.
    - The members of a response item other than its creation time are
      typed by the service model: a string when present.  The creation time
      may be any value, since the scripts test it with [isinstance].
    - The remote service is an explicit argument: a paginated call is the
      list of pages it delivers followed by an optional exception.
    - Exceptions are values; a generator consumed by [list.extend] is the
      list of records yielded before the optional exception. *)

From Stdlib Require Import ZArith String Ascii List Lia Permutation.
From stdpp Require Import base decidable option list sorting gmap strings pretty.

Local Open Scope Z_scope.

(** ** The proleptic Gregorian calendar of Python's [datetime] module *)

Module Calendar.

Definition MINYEAR : Z := 1.
Definition MAXYEAR : Z := 9999.
Definition MAXORDINAL : Z := 3652059.

Definition DI400Y : Z := 146097.
Definition DI100Y : Z := 36524.
Definition DI4Y : Z := 1461.

Definition is_leap (year : Z) : bool :=
  (year mod 4 =? 0) && (negb (year mod 100 =? 0) || (year mod 400 =? 0)).

Definition days_before_year (year : Z) : Z :=
  let y := year - 1 in y * 365 + y / 4 - y / 100 + y / 400.

Definition DAYS_IN_MONTH (month : Z) : Z :=
  match month with
  | 1 => 31 | 2 => 28 | 3 => 31 | 4 => 30 | 5 => 31 | 6 => 30
  | 7 => 31 | 8 => 31 | 9 => 30 | 10 => 31 | 11 => 30 | 12 => 31
  | _ => 0
  end.

Definition DAYS_BEFORE_MONTH (month : Z) : Z :=
  match month with
  | 1 => 0 | 2 => 31 | 3 => 59 | 4 => 90 | 5 => 120 | 6 => 151
  | 7 => 181 | 8 => 212 | 9 => 243 | 10 => 273 | 11 => 304 | 12 => 334
  | _ => 0
  end.

Definition days_in_month (year month : Z) : Z :=
  if (month =? 2) && is_leap year then 29 else DAYS_IN_MONTH month.

Definition days_before_month (year month : Z) : Z :=
  DAYS_BEFORE_MONTH month + (if (2 <? month) && is_leap year then 1 else 0).

(** [_ymd2ord]: January 1 of year 1 is day 1. *)
Definition ymd2ord (year month day : Z) : Z :=
  days_before_year year + days_before_month year month + day.

(** The tail of [_ord2ymd]: month and day of the month from the 0-based
    day of the year, by the estimate [(n + 50) >> 5] and its correction. *)
Definition month_day (leapyear : bool) (n : Z) : Z * Z :=
  let month := Z.shiftr (n + 50) 5 in
  let preceding :=
    DAYS_BEFORE_MONTH month + (if (2 <? month) && leapyear then 1 else 0) in
  if n <? preceding then
    let month := month - 1 in
    let preceding :=
      preceding - (DAYS_IN_MONTH month
                   + (if (month =? 2) && leapyear then 1 else 0)) in
    (month, n - preceding + 1)
  else (month, n - preceding + 1).

(** [_ord2ymd], with the successive [divmod]s of the library. *)
Definition ord2ymd (ordinal : Z) : Z * Z * Z :=
  let n := ordinal - 1 in
  let n400 := n / DI400Y in
  let n := n mod DI400Y in
  let n100 := n / DI100Y in
  let n := n mod DI100Y in
  let n4 := n / DI4Y in
  let n := n mod DI4Y in
  let n1 := n / 365 in
  let n := n mod 365 in
  let year := n400 * 400 + 1 + n100 * 100 + n4 * 4 + n1 in
  if (n1 =? 4) || (n100 =? 4) then (year - 1, 12, 31)
  else
    let leapyear := (n1 =? 3) && (negb (n4 =? 24) || (n100 =? 3)) in
    let '(month, day) := month_day leapyear n in
    (year, month, day).

Definition valid_date (year month day : Z) : Prop :=
  MINYEAR <= year <= MAXYEAR /\ 1 <= month <= 12 /\
  1 <= day <= days_in_month year month.

End Calendar.

(** ** Python values: exceptions, datetimes, strings *)

Inductive exn_class :=
  | BotoCoreError | ClientError | RuntimeError | OverflowError | OSError
  | KeyboardInterrupt.

Record exn := Exn { exn_type : exn_class; exn_str : string }.

(** [except Exception] catches every class but those deriving directly from
    [BaseException]. *)
Definition is_Exception (e : exn) : bool :=
  match exn_type e with KeyboardInterrupt => false | _ => true end.

(** [except (BotoCoreError, ClientError)]. *)
Definition is_boto_error (e : exn) : bool :=
  match exn_type e with BotoCoreError | ClientError => true | _ => false end.

Inductive result (A : Type) :=
  | Ok (a : A)
  | Raise (e : exn).
Arguments Ok {A} a.
Arguments Raise {A} e.

(** A [timedelta] is counted in microseconds. *)
Definition timedelta := Z.

Definition US_PER_SECOND : Z := 1000000.
Definition US_PER_DAY : Z := 86400 * US_PER_SECOND.
Definition MAX_DELTA_DAYS : Z := 999999999.

Record datetime := mk_datetime {
  year : Z; month : Z; day : Z;
  hour : Z; minute : Z; second : Z; microsecond : Z;
  utcoffset : timedelta
}.

(** The objects the [datetime] constructor accepts. *)
Definition valid_datetime (d : datetime) : Prop :=
  Calendar.valid_date (year d) (month d) (day d) /\
  0 <= hour d < 24 /\ 0 <= minute d < 60 /\ 0 <= second d < 60 /\
  0 <= microsecond d < US_PER_SECOND /\
  - US_PER_DAY < utcoffset d < US_PER_DAY.

(** [timedelta(days=n)]. *)
Definition timedelta_days (n : Z) : result timedelta :=
  if (- MAX_DELTA_DAYS <=? n) && (n <=? MAX_DELTA_DAYS) then Ok (n * US_PER_DAY)
  else Raise (Exn OverflowError "days out of range").

(** The civil fields as microseconds since the start of ordinal day 0. *)
Definition civil_us (d : datetime) : Z :=
  ((Calendar.ymd2ord (year d) (month d) (day d) * 86400
    + hour d * 3600 + minute d * 60 + second d) * US_PER_SECOND)
  + microsecond d.

(** The instant denoted, on the UTC time line. *)
Definition instant (d : datetime) : Z := civil_us d - utcoffset d.

(** The whole second of the instant. *)
Definition instant_s (d : datetime) : Z := instant d / US_PER_SECOND.

(** Fields of a microsecond count, under a given offset. *)
Definition of_civil_us (t : Z) (tz : timedelta) : result datetime :=
  let days := t / US_PER_DAY in
  let rem := t mod US_PER_DAY in
  let secs := rem / US_PER_SECOND in
  if (0 <? days) && (days <=? Calendar.MAXORDINAL) then
    let '(y, m, dd) := Calendar.ord2ymd days in
    Ok (mk_datetime y m dd (secs / 3600) (secs mod 3600 / 60) (secs mod 60)
          (rem mod US_PER_SECOND) tz)
  else Raise (Exn OverflowError "date value out of range").

(** [d + delta], keeping the tzinfo. *)
Definition datetime_add (d : datetime) (delta : timedelta) : result datetime :=
  of_civil_us (civil_us d + delta) (utcoffset d).

(** [d.astimezone(timezone.utc)]: subtract the offset and relabel. *)
Definition astimezone_utc (d : datetime) : result datetime :=
  of_civil_us (instant d) 0.

(** [a <= b] on aware datetimes compares instants. *)
Definition datetime_le (a b : datetime) : bool := instant a <=? instant b.

(** Decimal digits, zero-padded to a fixed width. *)
Definition digit (n : Z) : ascii := ascii_of_N (48 + Z.to_N (n mod 10)).

Fixpoint zpad (width : nat) (n : Z) : string :=
  match width with
  | O => EmptyString
  | S w => zpad w (n / 10) +:+ String (digit n) EmptyString
  end.

(** [d.strftime("%Y-%m-%dT%H:%M:%SZ")]: the year in decimal, as many
    digits as it has, then the fields of two digits. *)
Definition strftime_iso (d : datetime) : string :=
  pretty (year d) +:+ "-" +:+ zpad 2 (month d) +:+ "-" +:+ zpad 2 (day d)
  +:+ "T" +:+ zpad 2 (hour d) +:+ ":" +:+ zpad 2 (minute d) +:+ ":"
  +:+ zpad 2 (second d) +:+ "Z".


(** ** Provider responses *)

(** What [dict.get] may find under a creation-time key; an absent key reads
    as [PyNone]. *)
Inductive pyval :=
  | PyNone
  | PyStr (s : string)
  | PyInt (z : Z)
  | PyDatetime (d : datetime).

(** The other members are typed by the service model: each is a string
    when present, and [dict.get] gives [None] when it is absent. *)
Record tag := mk_tag { Key : option string; Value : option string }.

Record ebs_snapshot := mk_ebs {
  StartTime : pyval;
  Tags : option (list tag);
  Description : option string;
  SnapshotId : option string
}.

Record db_snapshot := mk_db {
  DBSnapshotIdentifier : option string;
  db_SnapshotCreateTime : pyval;
  DBInstanceIdentifier : option string;
  db_TagList : option (list tag);
  db_others : list (string * string)
}.

Record db_cluster_snapshot := mk_dbc {
  DBClusterSnapshotIdentifier : option string;
  dbc_SnapshotCreateTime : pyval;
  DBClusterIdentifier : option string;
  dbc_TagList : option (list tag);
  dbc_others : list (string * string)
}.

Record region_entry := mk_region {
  RegionName : option string;
  OptInStatus : option string
}.

(** A page holds its items under one key, which may be missing
    ([page.get(key, [])]). *)
Definition page (A : Type) := option (list A).

(** A paginated call: the pages delivered, then the exception that ended
    the iteration, if any. *)
Record paginated (A : Type) := mk_paginated {
  pages : list (page A);
  failure : option exn
}.
Arguments mk_paginated {A} pages failure.
Arguments pages {A} p.
Arguments failure {A} p.

(** What a [boto3] session answers.  [ec2_client] and [rds_client] give the
    exception, if any, that building the client for a region raises. *)
Record session := mk_session {
  region_name : option string;
  ec2_client : option string -> option exn;
  rds_client : option string -> option exn;
  describe_regions : result (option (list region_entry));
  describe_snapshots : string -> paginated ebs_snapshot;
  describe_db_snapshots : string -> paginated db_snapshot;
  describe_db_cluster_snapshots : string -> paginated db_cluster_snapshot
}.

(** ** Records and name resolution *)

(** The dict [{"name": ..., "created": ...}] of [extract_snapshots.py] and
    the tuple [(name, created)] of [list_ebs_snapshots.py]. *)
Record snapshot_record := mk_record { name : string; created : string }.

Global Instance snapshot_record_eq_dec : EqDecision snapshot_record.
Proof. solve_decision. Defined.

(** Truth value of a string-or-None. *)
Definition truthy (v : option string) : bool :=
  match v with
  | Some s => if decide (s = EmptyString) then false else true
  | None => false
  end.

(** [a or b]. *)
Definition py_or (a b : option string) : option string :=
  if truthy a then a else b.

(** [str(v)]. *)
Definition py_str (v : option string) : string :=
  match v with Some s => s | None => "None" end.

(** [next((t.get("Value") for t in tags if t.get("Key") == "Name"), None)]. *)
Fixpoint name_tag_of (tags : list tag) : option string :=
  match tags with
  | [] => None
  | t :: rest =>
      if decide (Key t = Some "Name"%string) then Value t else name_tag_of rest
  end.

Definition UNNAMED : string := "<unnamed>".

(** The display name of a block-storage snapshot (both scripts). *)
Definition ebs_display_name (snap : ebs_snapshot) : option string :=
  let tags := match Tags snap with Some l => l | None => [] end in
  let name_tag := name_tag_of tags in
  let description := Description snap in
  let snapshot_id := SnapshotId snap in
  py_or (py_or (py_or name_tag description) snapshot_id) (Some UNNAMED).

(** ** Source enumerators *)

(** One turn of an enumerator's inner loop. *)
Inductive step :=
  | Skip
  | Yield (r : snapshot_record)
  | Fail (e : exn).

Definition emit (display_name : option string) (t : datetime) : step :=
  match astimezone_utc t with
  | Ok u => Yield (mk_record (py_str display_name) (strftime_iso u))
  | Raise e => Fail e
  end.

(** A generator drained by its consumer: the records produced before the
    exception that stopped it, if any. *)
Definition drained : Type := list snapshot_record * option exn.

Section Loops.
Context {A : Type} (body : A -> step).

Fixpoint run_items (items : list A) : drained :=
  match items with
  | [] => ([], None)
  | x :: rest =>
      match body x with
      | Skip => run_items rest
      | Yield r => let '(rs, e) := run_items rest in (r :: rs, e)
      | Fail e => ([], Some e)
      end
  end.

Definition page_items (p : page A) : list A :=
  match p with Some l => l | None => [] end.

Fixpoint run_pages (ps : list (page A)) (last : option exn) : drained :=
  match ps with
  | [] => ([], last)
  | p :: rest =>
      match run_items (page_items p) with
      | (rs, Some e) => (rs, Some e)
      | (rs, None) => let '(rs', e) := run_pages rest last in (rs ++ rs', e)
      end
  end.

Definition run_paginated (client : option exn) (p : paginated A) : drained :=
  match client with
  | Some e => ([], Some e)
  | None => run_pages (pages p) (failure p)
  end.
End Loops.

(** ** Reporter *)

Definition TAB : string := String "009"%char EmptyString.
Definition NEWLINE : string := String "010"%char EmptyString.

(** The order of the sort key [(created, name)]: tuples compare by their
    first differing component, strings by code point. *)
Definition sort_key_le (r1 r2 : snapshot_record) : Prop :=
  match String.compare (created r1) (created r2) with
  | Lt => True
  | Eq => String.le (name r1) (name r2)
  | Gt => False
  end.

Global Instance sort_key_le_dec : RelDecision sort_key_le.
Proof.
  intros r1 r2. unfold sort_key_le.
  destruct (String.compare (created r1) (created r2)); apply _.
Defined.

(** [rows.sort(key=...)]. *)
Definition sort_rows (rows : list snapshot_record) : list snapshot_record :=
  merge_sort sort_key_le rows.

(** [f"{name}\t{created}"]. *)
Definition format_row (r : snapshot_record) : string :=
  name r +:+ TAB +:+ created r.

(** The successive [f.write(f"{name}\t{created}\n")]. *)
Fixpoint write_rows (rows : list snapshot_record) : string :=
  match rows with
  | [] => EmptyString
  | r :: rest => (format_row r +:+ NEWLINE) +:+ write_rows rest
  end.

(** ** Process environment and outcome *)

Record world := mk_world {
  boto3_Session : option string -> result session;
  now_utc : datetime;
  (** the [OSError], if any, of opening and writing a path *)
  open_for_write : string -> option string
}.

Inductive exit :=
  | Returns
  | SystemExit (msg : string)
  | Traceback (e : exn).

Record outcome := mk_outcome {
  stdout : list string;
  written : option (string * string);
  exit_of : exit
}.

(** The exit status: 0 when [main] returns, 1 when it ends with
    [SystemExit] and a message or with an uncaught [Exception].  An
    uncaught interrupt ends the process with a non-zero status too, for
    which 1 stands here. *)
Definition exit_status (o : outcome) : Z :=
  match exit_of o with Returns => 0 | _ => 1 end.

Definition build_session (w : world) (profile_name : option string) : result session :=
  if truthy profile_name then boto3_Session w profile_name
  else boto3_Session w None.

Definition session_failure (e : exn) : outcome :=
  if is_Exception e
  then mk_outcome [] None (SystemExit ("Failed to create AWS session: " +:+ exn_str e))
  else mk_outcome [] None (Traceback e).

Definition wrote_line (rows : list snapshot_record) (path : string) : string :=
  "Wrote " +:+ pretty (length rows) +:+ " records to " +:+ path.

Definition write_failure (path msg : string) : exit :=
  SystemExit ("Failed to write output file " +:+ path +:+ ": " +:+ msg).

(** ** extract_snapshots.py *)

Module ExtractSnapshots.

Inductive service := ebs | rds | both.

Record args := mk_args {
  profile : option string;
  region : option string;
  all_regions : bool;
  service_of : service;
  days : Z;
  output : string
}.

Definition ebs_item (cutoff_dt : datetime) (snap : ebs_snapshot) : step :=
  match StartTime snap with
  | PyDatetime start_time =>
      if datetime_le start_time cutoff_dt
      then emit (ebs_display_name snap) start_time
      else Skip
  | _ => Skip
  end.

Definition rds_instance_item (cutoff_dt : datetime) (snap : db_snapshot) : step :=
  match db_SnapshotCreateTime snap with
  | PyDatetime created =>
      if datetime_le created cutoff_dt
      then emit (py_or (DBSnapshotIdentifier snap) (Some UNNAMED)) created
      else Skip
  | _ => Skip
  end.

Definition rds_cluster_item (cutoff_dt : datetime) (snap : db_cluster_snapshot) : step :=
  match dbc_SnapshotCreateTime snap with
  | PyDatetime created =>
      if datetime_le created cutoff_dt
      then emit (py_or (DBClusterSnapshotIdentifier snap) (Some UNNAMED)) created
      else Skip
  | _ => Skip
  end.

Definition get_ebs_snapshots (s : session) (region : string) (cutoff_dt : datetime) : drained :=
  run_paginated (ebs_item cutoff_dt) (ec2_client s (Some region))
    (describe_snapshots s region).

Definition get_rds_instance_snapshots (s : session) (region : string) (cutoff_dt : datetime) : drained :=
  run_paginated (rds_instance_item cutoff_dt) (rds_client s (Some region))
    (describe_db_snapshots s region).

Definition get_rds_cluster_snapshots (s : session) (region : string) (cutoff_dt : datetime) : drained :=
  run_paginated (rds_cluster_item cutoff_dt) (rds_client s (Some region))
    (describe_db_cluster_snapshots s region).

(** ** Region resolver *)

Definition region_kept (r : region_entry) : bool :=
  truthy (RegionName r) &&
  match OptInStatus r with
  | None => true
  | Some st =>
      if decide (st = "opt-in-not-required"%string) then true
      else if decide (st = "opted-in"%string) then true else false
  end.

(** [sorted(set(regions))]. *)
Definition sorted_set (l : list string) : list string :=
  merge_sort String.le (elements (list_to_set l : gset string)).

Definition list_opted_in_regions (s : session) : result (list string) :=
  match ec2_client s None with
  | Some e => Raise e
  | None =>
      match describe_regions s with
      | Ok resp =>
          let entries := match resp with Some l => l | None => [] end in
          Ok (sorted_set (omap (fun r => if region_kept r then RegionName r else None) entries))
      | Raise e =>
          if is_boto_error e
          then Raise (Exn RuntimeError ("Failed to list regions: " +:+ exn_str e))
          else Raise e
      end
  end.


(** The region selection of [main]. *)
Definition NO_REGION : string :=
  "No region specified and no default region configured in the profile. Use --region or --all-regions.".

Definition resolve_regions (a : args) (s : session) : exit + list string :=
  if all_regions a then
    match list_opted_in_regions s with
    | Ok regions => inr regions
    | Raise e =>
        if is_Exception e then inl (SystemExit (exn_str e)) else inl (Traceback e)
    end
  else
    let region := py_or (region a) (region_name s) in
    if truthy region then inr [py_str region]
    else inl (SystemExit NO_REGION).

(** The accumulated [rows] and the lines printed so far. *)
Definition acc : Type := list snapshot_record * list string.

Definition warning (what region : string) (e : exn) : string :=
  "Warning: Failed to list " +:+ what +:+ " in " +:+ region +:+ ": " +:+ exn_str e.

(** [try: rows.extend(g) except (BotoCoreError, ClientError) as exc: print(...)].
    The records produced before the exception are already in [rows]. *)
Definition extend (what region : string) (g : drained) (st : acc) : acc * option exn :=
  let '(rows, out) := st in
  match g with
  | (rs, None) => ((rows ++ rs, out), None)
  | (rs, Some e) =>
      if is_boto_error e
      then ((rows ++ rs, out ++ [warning what region e]), None)
      else ((rows ++ rs, out), Some e)
  end.

Definition include_ebs (a : args) : bool :=
  match service_of a with ebs | both => true | rds => false end.
Definition include_rds (a : args) : bool :=
  match service_of a with rds | both => true | ebs => false end.

(** One turn of [for region in regions]. *)
Definition visit_region (a : args) (s : session) (cutoff_dt : datetime)
    (region : string) (st : acc) : acc * option exn :=
  let r1 :=
    if include_ebs a
    then extend "EBS snapshots" region (get_ebs_snapshots s region cutoff_dt) st
    else (st, None) in
  match r1 with
  | (st1, Some e) => (st1, Some e)
  | (st1, None) =>
      if include_rds a then
        match extend "RDS DB snapshots" region
                (get_rds_instance_snapshots s region cutoff_dt) st1 with
        | (st2, Some e) => (st2, Some e)
        | (st2, None) =>
            extend "RDS cluster snapshots" region
              (get_rds_cluster_snapshots s region cutoff_dt) st2
        end
      else (st1, None)
  end.

Fixpoint aggregate (a : args) (s : session) (cutoff_dt : datetime)
    (regions : list string) (st : acc) : acc * option exn :=
  match regions with
  | [] => (st, None)
  | region :: rest =>
      match visit_region a s cutoff_dt region st with
      | (st', Some e) => (st', Some e)
      | (st', None) => aggregate a s cutoff_dt rest st'
      end
  end.

(** [now_utc - timedelta(days=int(args.days))]. *)
Definition cutoff_of (now : datetime) (n : Z) : result datetime :=
  match timedelta_days n with
  | Ok delta => datetime_add now (- delta)
  | Raise e => Raise e
  end.

(** Sorting, writing the file and the closing line. *)
Definition report (w : world) (path : string) (rows : list snapshot_record)
    (out : list string) : outcome :=
  let rows := sort_rows rows in
  match open_for_write w path with
  | Some msg => mk_outcome out None (write_failure path msg)
  | None =>
      mk_outcome (out ++ [wrote_line rows path]) (Some (path, write_rows rows)) Returns
  end.

Definition main (w : world) (a : args) : outcome :=
  match build_session w (profile a) with
  | Raise e => session_failure e
  | Ok s =>
      match cutoff_of (now_utc w) (days a) with
      | Raise e => mk_outcome [] None (Traceback e)
      | Ok cutoff_dt =>
          match resolve_regions a s with
          | inl x => mk_outcome [] None x
          | inr regions =>
              match aggregate a s cutoff_dt regions ([], []) with
              | ((_, out), Some e) => mk_outcome out None (Traceback e)
              | ((rows, out), None) => report w (output a) rows out
              end
          end
      end
  end.

End ExtractSnapshots.

(** ** list_ebs_snapshots.py *)

Module ListEbsSnapshots.

Record args := mk_args {
  profile : option string;
  region : string;
  output : option string
}.

(** The loop body of [list_ebs_snapshots.py]: no cutoff. *)
Definition ebs_item (snap : ebs_snapshot) : step :=
  match StartTime snap with
  | PyDatetime start_time => emit (ebs_display_name snap) start_time
  | _ => Skip
  end.

Definition main (w : world) (a : args) : outcome :=
  match build_session w (profile a) with
  | Raise e => session_failure e
  | Ok s =>
      match ec2_client s (Some (region a)) with
      | Some e => mk_outcome [] None (Traceback e)
      | None =>
          let p := describe_snapshots s (region a) in
          match run_pages ebs_item (pages p) (failure p) with
          | (_, Some e) =>
              if is_boto_error e
              then mk_outcome [] None
                     (SystemExit ("Failed to list EBS snapshots in " +:+ region a
                                  +:+ ": " +:+ exn_str e))
              else mk_outcome [] None (Traceback e)
          | (rows, None) =>
              let rows := sort_rows rows in
              let out := format_row <$> rows in
              if truthy (output a) then
                let path := py_str (output a) in
                match open_for_write w path with
                | Some msg => mk_outcome out None (write_failure path msg)
                | None =>
                    mk_outcome (out ++ [wrote_line rows path])
                      (Some (path, write_rows rows)) Returns
                end
              else mk_outcome out None Returns
          end
      end
  end.

End ListEbsSnapshots.

(** ** Reading back what the scripts write

    The functions of this section are not part of the scripts: they are the
    reader against which the written text is specified. *)

Definition digit_value (c : ascii) : option Z :=
  let n := Z.of_N (N_of_ascii c) in
  if (48 <=? n) && (n <=? 57) then Some (n - 48) else None.





(** The lines of a text, each ended by a newline. *)
Fixpoint lines_of (s : string) : list string :=
  match s with
  | EmptyString => []
  | String c rest =>
      if decide (c = "010"%char) then EmptyString :: lines_of rest
      else match lines_of rest with
           | [] => [String c EmptyString]
           | l :: ls => String c l :: ls
           end
  end.

(** Splitting a line at its last TAB. *)
Fixpoint rsplit_tab (s : string) : option (string * string) :=
  match s with
  | EmptyString => None
  | String c rest =>
      match rsplit_tab rest with
      | Some (a, b) => Some (String c a, b)
      | None => if decide (c = "009"%char) then Some (EmptyString, rest) else None
      end
  end.

Fixpoint contains (c : ascii) (s : string) : bool :=
  match s with
  | EmptyString => false
  | String c' rest => if decide (c = c') then true else contains c rest
  end.

(** ** Auxiliary notions for the statements *)

(** The UTC conversion stays within the years 1 to 9999. *)
Definition utc_representable (d : datetime) : Prop :=
  0 < instant d / US_PER_DAY <= Calendar.MAXORDINAL.

Definition well_formed (d : datetime) : Prop :=
  valid_datetime d /\ utc_representable d.


(** A creation-time field that is not a datetime. *)
Definition not_datetime (v : pyval) : Prop :=
  match v with PyDatetime _ => False | _ => True end.

Definition leap_extra (b : bool) : Z := if b then 1 else 0.

Definition date_lt (a b : Z * Z * Z) : Prop :=
  let '(y, m, d) := a in
  let '(y', m', d') := b in
  y < y' \/ (y = y' /\ (m < m' \/ (m = m' /\ d < d'))).

Fixpoint all_from (n : nat) (r : Z) (P : Z -> bool) : bool :=
  match n with
  | O => true
  | S k => P r && all_from k (r + 1) P
  end.

Definition month_day_ok (leap : bool) (n : Z) : bool :=
  let '(m, d) := Calendar.month_day leap n in
  (1 <=? m) && (m <=? 12) && (1 <=? d)
  && (d <=? Calendar.DAYS_IN_MONTH m + leap_extra ((m =? 2) && leap))
  && (Calendar.DAYS_BEFORE_MONTH m + leap_extra ((2 <? m) && leap) + d =? n + 1).

(** First differing component decides. *)
Definition lex (c1 c2 : comparison) : comparison :=
  match c1 with Eq => c2 | _ => c1 end.

(** Civil seconds since the start of ordinal day 0. *)
Definition civil_s (d : datetime) : Z :=
  Calendar.ymd2ord (year d) (month d) (day d) * 86400
  + hour d * 3600 + minute d * 60 + second d.

Definition TAB_CHAR : ascii := "009"%char.
Definition NEWLINE_CHAR : ascii := "010"%char.


(** The number of decimal digits of a year. *)
Definition year_width (y : Z) : nat :=
  if y <? 10 then 1%nat else if y <? 100 then 2%nat
  else if y <? 1000 then 3%nat else 4%nat.


(** The decimal text of a year is its digits on that width. *)
Definition year_text_ok (y : Z) : bool :=
  String.eqb (pretty y) (zpad (year_width y) y).

(** A record some enumerator can produce. *)
Definition emitted (r : snapshot_record) : Prop :=
  exists display_name t, emit display_name t = Yield r.

(** Whether the item [x] of a paginated answer [p] gets a record in the
    [result] of an enumeration.  When [keep] fails, the result is that of
    the same loop over the answer without [x].  When no item before [x]
    makes the loop body raise, [keep] holds exactly when the result has,
    after the records [rs1] of the earlier items, the record the body
    yields for [x], and is otherwise the result over the answer without
    [x]. *)
Definition gets_record_iff {A : Type} (body : A -> step) (x : A) (keep : Prop)
    (p : paginated A) (result : drained) : Prop :=
  forall ps1 pre post ps2,
    pages p = ps1 ++ Some (pre ++ x :: post) :: ps2 ->
    (~ keep ->
     result = run_pages body (ps1 ++ Some (pre ++ post) :: ps2) (failure p)) /\
    forall rs1,
      run_items body (concat (page_items <$> ps1) ++ pre) = (rs1, None) ->
      ((exists r rs2 e,
          body x = Yield r /\ result = (rs1 ++ r :: rs2, e) /\
          run_pages body (ps1 ++ Some (pre ++ post) :: ps2) (failure p)
          = (rs1 ++ rs2, e))
       <-> keep).

(** [snap.get("Tags", []) or []]. *)
Definition tags_of (snap : ebs_snapshot) : list tag :=
  match Tags snap with Some l => l | None => [] end.

(** A tag whose key is not "Name". *)
Definition not_Name (t : tag) : Prop := Key t <> Some "Name"%string.

(** The tags give no usable name: none has the key "Name", or the first
    one that has it carries no value or an empty one. *)
Definition no_name_value (tags : list tag) : Prop :=
  Forall not_Name tags \/
  exists pre t post, tags = pre ++ t :: post /\ Forall not_Name pre /\
    Key t = Some "Name"%string /\ truthy (Value t) = false.

(** The item [bad] leaves no trace: the loop body skips it, a paginated run
    over an input containing it equals the run over the input without it,
    and where another item [good] in its place yields [r], the only
    difference between the two runs is that one record. *)
Definition skips_silently {A : Type} (body : A -> step) (bad : A) : Prop :=
  body bad = Skip /\
  forall ps1 pre post ps2 last,
    run_pages body (ps1 ++ Some (pre ++ bad :: post) :: ps2) last
    = run_pages body (ps1 ++ Some (pre ++ post) :: ps2) last /\
    forall good r rs1,
      body good = Yield r ->
      run_items body (concat (page_items <$> ps1) ++ pre) = (rs1, None) ->
      exists rs2 e,
        run_pages body (ps1 ++ Some (pre ++ good :: post) :: ps2) last
          = (rs1 ++ r :: rs2, e) /\
        run_pages body (ps1 ++ Some (pre ++ bad :: post) :: ps2) last
          = (rs1 ++ rs2, e).

(** The opt-in statuses [list_opted_in_regions] keeps. *)
Definition accepted_status (st : option string) : Prop :=
  st = None \/ st = Some "opt-in-not-required"%string \/ st = Some "opted-in"%string.

(** One enumerator call of the aggregator: the wording of its warning, its
    region and what the generator delivered. *)
Record call := mk_call {
  call_what : string;
  call_region : string;
  call_result : drained
}.

(** The calls [main] makes for one region, in order. *)
Definition calls_for (a : ExtractSnapshots.args) (s : session) (cutoff_dt : datetime)
    (region : string) : list call :=
  (if ExtractSnapshots.include_ebs a
   then [mk_call "EBS snapshots" region
           (ExtractSnapshots.get_ebs_snapshots s region cutoff_dt)]
   else [])
  ++ (if ExtractSnapshots.include_rds a
      then [mk_call "RDS DB snapshots" region
              (ExtractSnapshots.get_rds_instance_snapshots s region cutoff_dt);
            mk_call "RDS cluster snapshots" region
              (ExtractSnapshots.get_rds_cluster_snapshots s region cutoff_dt)]
      else []).

Definition all_calls (a : ExtractSnapshots.args) (s : session) (cutoff_dt : datetime)
    (regions : list string) : list call :=
  concat (calls_for a s cutoff_dt <$> regions).

Definition call_records (c : call) : list snapshot_record := fst (call_result c).

Definition call_warnings (c : call) : list string :=
  match snd (call_result c) with
  | Some e => [ExtractSnapshots.warning (call_what c) (call_region c) e]
  | None => []
  end.

(** The call ended normally, or with a [BotoCoreError] or a [ClientError]. *)
Definition remote_failure_only (c : call) : Prop :=
  forall e, snd (call_result c) = Some e -> is_boto_error e = true.

(** ** Sample data *)

Definition sample_now : datetime := mk_datetime 2024 6 1 12 0 0 0 0.

Definition sample_cutoff : datetime := mk_datetime 2024 5 2 12 0 0 0 0.

(** Created 40 days before [sample_now], in a zone two hours east of UTC. *)
Definition sample_old : ebs_snapshot :=
  mk_ebs (PyDatetime (mk_datetime 2024 4 22 14 0 0 0 7200000000))
    (Some [mk_tag (Some "Name"%string) (Some "backup-a"%string)])
    (Some "nightly"%string) (Some "snap-001"%string).

(** Created 10 days before [sample_now]. *)
Definition sample_recent : ebs_snapshot :=
  mk_ebs (PyDatetime (mk_datetime 2024 5 22 12 0 0 0 0)) None None
    (Some "snap-123"%string).

Definition sample_untimed : ebs_snapshot :=
  mk_ebs (PyStr "2024-04-22") None None (Some "snap-002"%string).

Definition sample_multiline : ebs_snapshot :=
  mk_ebs (PyDatetime (mk_datetime 2024 4 22 12 0 0 0 0))
    (Some [mk_tag (Some "Name"%string) (Some ("a" +:+ NEWLINE +:+ "b"))])
    None (Some "snap-003"%string).

Definition sample_db : db_snapshot :=
  mk_db (Some "db-snap-1"%string) (PyDatetime (mk_datetime 2024 4 27 12 0 0 0 0))
    (Some "db-1"%string)
    (Some [mk_tag (Some "Name"%string) (Some "ignored"%string)])
    [("Description"%string, "ignored too"%string)].

Definition sample_cluster : db_cluster_snapshot :=
  mk_dbc (Some "cluster-snap-1"%string)
    (PyDatetime (mk_datetime 2024 4 27 12 0 0 0 0)) (Some "cluster-1"%string)
    None [].

Definition no_pages {A : Type} : paginated A := mk_paginated [] None.

(** Both [--region] and [--all-regions] given. *)
Definition sample_both_flags : ExtractSnapshots.args :=
  ExtractSnapshots.mk_args None (Some "us-east-1"%string) true ExtractSnapshots.ebs 30
    "snapshots.txt".

Definition sample_all_regions : ExtractSnapshots.args :=
  ExtractSnapshots.mk_args None None true ExtractSnapshots.both 30 "snapshots.txt".

Definition sample_one_region : ExtractSnapshots.args :=
  ExtractSnapshots.mk_args None (Some "us-east-1"%string) false ExtractSnapshots.both 30
    "snapshots.txt".

Definition sample_regions_session : session :=
  mk_session None (fun _ => None) (fun _ => None)
    (Ok (Some [mk_region (Some "eu-west-1"%string) None]))
    (fun _ => no_pages) (fun _ => no_pages) (fun _ => no_pages).

(** Two regions answer the listing.  In [eu-west-1] everything works; in
    [us-east-1] the block-storage call ends, after its first page, with the
    exception [e]. *)
Definition sample_session (e : exn) : session :=
  mk_session (Some "us-east-1"%string) (fun _ => None) (fun _ => None)
    (Ok (Some [mk_region (Some "us-east-1"%string) None;
               mk_region (Some "ap-east-1"%string) (Some "not-opted-in"%string);
               mk_region (Some "eu-west-1"%string) (Some "opted-in"%string);
               mk_region (Some "us-east-1"%string) (Some "opt-in-not-required"%string)]))
    (fun region =>
       if decide (region = "eu-west-1"%string)
       then mk_paginated [Some [sample_old; sample_recent]] None
       else mk_paginated [Some [sample_multiline]; None] (Some e))
    (fun region =>
       if decide (region = "eu-west-1"%string)
       then mk_paginated [Some [sample_db]] None else no_pages)
    (fun region =>
       if decide (region = "eu-west-1"%string)
       then mk_paginated [Some [sample_cluster]] None else no_pages).

Definition sample_world (e : exn) : world :=
  mk_world (fun _ => Ok (sample_session e)) sample_now (fun _ => None).

Definition throttled : exn := Exn ClientError "Throttling".
Definition unexpected : exn := Exn RuntimeError "unexpected".

(** One region holding two block-storage snapshots, 40 and 10 days old,
    and one database cluster snapshot as old as the first. *)
Definition scenario_session : session :=
  mk_session (Some "us-east-1"%string) (fun _ => None) (fun _ => None) (Ok None)
    (fun _ => mk_paginated [Some [sample_old]; Some [sample_recent]] None)
    (fun _ => no_pages)
    (fun _ => mk_paginated
                [Some [mk_dbc (Some "aurora-1"%string)
                         (PyDatetime (mk_datetime 2024 4 22 12 0 0 0 0)) None None []]]
                None).

Definition scenario_world : world :=
  mk_world (fun _ => Ok scenario_session) sample_now (fun _ => None).

(** ** Notions for the further properties *)

(** The record an item contributes, if any. *)
Definition yield_of {A : Type} (body : A -> step) (x : A) : option snapshot_record :=
  match body x with Yield r => Some r | _ => None end.

(** The loop body raises on no item of the list. *)
Definition never_fails {A : Type} (body : A -> step) (items : list A) : Prop :=
  Forall (fun x => forall e, body x <> Fail e) items.

(** All the items of a paginated answer, in the order of delivery. *)
Definition all_items {A : Type} (ps : list (page A)) : list A :=
  concat (page_items <$> ps).

(** The guarded calls of the aggregator, one after the other, as [main]
    makes them: a call that ends with an exception other than the two
    botocore classes stops the sequence. *)
Fixpoint run_calls (calls : list call) (st : ExtractSnapshots.acc)
    : ExtractSnapshots.acc * option exn :=
  match calls with
  | [] => (st, None)
  | c :: rest =>
      match ExtractSnapshots.extend (call_what c) (call_region c) (call_result c) st with
      | (st', Some e) => (st', Some e)
      | (st', None) => run_calls rest st'
      end
  end.

(** Two sessions that answer alike on everything block storage and the
    region listing need. *)
Definition same_ec2 (s s' : session) : Prop :=
  region_name s = region_name s' /\
  (forall r, ec2_client s r = ec2_client s' r) /\
  describe_regions s = describe_regions s' /\
  (forall r, describe_snapshots s r = describe_snapshots s' r).

(** Two sessions that answer alike on everything the database calls and
    the region listing need. *)
Definition same_rds (s s' : session) : Prop :=
  region_name s = region_name s' /\
  ec2_client s None = ec2_client s' None /\
  (forall r, rds_client s r = rds_client s' r) /\
  describe_regions s = describe_regions s' /\
  (forall r, describe_db_snapshots s r = describe_db_snapshots s' r) /\
  (forall r, describe_db_cluster_snapshots s r = describe_db_cluster_snapshots s' r).

(** ** More sample data *)

(** As [scenario_session] for block storage, with a database service that
    cannot even be reached. *)
Definition scenario_session_no_rds : session :=
  mk_session (Some "us-east-1"%string) (fun _ => None) (fun _ => Some throttled)
    (Ok None) (describe_snapshots scenario_session)
    (fun _ => mk_paginated [] (Some unexpected))
    (fun _ => mk_paginated [] (Some unexpected)).

Definition scenario_world_no_rds : world :=
  mk_world (fun _ => Ok scenario_session_no_rds) sample_now (fun _ => None).

Definition scenario_args : ExtractSnapshots.args :=
  ExtractSnapshots.mk_args None None false ExtractSnapshots.ebs 30 "out.txt".

(** The available regions of [sample_session], listed once each and in
    another order. *)
Definition tidy_listing_session : session :=
  mk_session None (fun _ => None) (fun _ => None)
    (Ok (Some [mk_region (Some "eu-west-1"%string) None;
               mk_region (Some "us-east-1"%string) None]))
    (fun _ => no_pages) (fun _ => no_pages) (fun _ => no_pages).

Definition failing_listing_session : session :=
  mk_session None (fun _ => None) (fun _ => None) (Raise throttled)
    (fun _ => no_pages) (fun _ => no_pages) (fun _ => no_pages).

Definition empty_listing_session : session :=
  mk_session None (fun _ => None) (fun _ => None)
    (Ok (Some [mk_region (Some "ap-east-1"%string) (Some "not-opted-in"%string);
               mk_region None None]))
    (fun _ => no_pages) (fun _ => no_pages) (fun _ => no_pages).

Definition empty_listing_world : world :=
  mk_world (fun _ => Ok empty_listing_session) sample_now (fun _ => None).

Definition no_profile_world : world :=
  mk_world (fun _ => Raise (Exn BotoCoreError "ProfileNotFound")) sample_now
    (fun _ => None).

Definition read_only_world : world :=
  mk_world (fun _ => Ok (sample_session throttled)) sample_now
    (fun _ => Some "Permission denied"%string).

Definition huge_days_args : ExtractSnapshots.args :=
  ExtractSnapshots.mk_args None None true ExtractSnapshots.both 1000000000 "snapshots.txt".

Definition sample_out_of_range : ebs_snapshot :=
  mk_ebs (PyDatetime (mk_datetime 1 1 1 0 0 0 0 3600000000)) None None None.

Definition list_args_stdout : ListEbsSnapshots.args :=
  ListEbsSnapshots.mk_args None "us-east-1" None.

Definition list_args_file : ListEbsSnapshots.args :=
  ListEbsSnapshots.mk_args None "us-east-1" (Some "out.txt"%string).

(** Created at the very instant of [sample_cutoff]. *)
Definition sample_at_cutoff : ebs_snapshot :=
  mk_ebs (PyDatetime sample_cutoff) None None (Some "snap-030"%string).

(** One region whose block-storage answer comes in two pages; the second
    holds, between two older snapshots, the one created at the cutoff. *)
Definition boundary_session : session :=
  mk_session (Some "us-east-1"%string) (fun _ => None) (fun _ => None) (Ok None)
    (fun _ => mk_paginated
                [Some [sample_recent];
                 Some ([sample_old] ++ sample_at_cutoff :: [sample_multiline])]
                None)
    (fun _ => no_pages) (fun _ => no_pages).

(** A "Name" tag after a tag of another key and before a second "Name"
    tag. *)
Definition sample_tagged : ebs_snapshot :=
  mk_ebs (PyDatetime (mk_datetime 2024 4 22 12 0 0 0 0))
    (Some ([mk_tag (Some "Owner"%string) (Some "ops"%string)]
           ++ mk_tag (Some "Name"%string) (Some "backup-a"%string)
           :: [mk_tag (Some "Name"%string) (Some "second"%string)]))
    (Some "nightly"%string) (Some "snap-001"%string).

(** A cluster snapshot without identifier. *)
Definition sample_cluster_unnamed : db_cluster_snapshot :=
  mk_dbc None (PyDatetime (mk_datetime 2024 4 27 12 0 0 0 0)) (Some "cluster-1"%string)
    (Some [mk_tag (Some "Name"%string) (Some "ignored"%string)])
    [("Description"%string, "ignored too"%string)].

(** A creation time in the year 987, in UTC. *)
Definition small_year : datetime := mk_datetime 987 2 9 7 5 9 123 0.


(** * Properties *)

(** ** The calendar *)

Section CalendarFacts.
Import Calendar.

Lemma all_from_spec n : forall r0 P, all_from n r0 P = true -> forall r, r0 <= r < r0 + Z.of_nat n -> P r = true.
Proof.
  induction n as [|k IH]; intros r0 P H r Hr; [lia|].
  simpl in H. apply andb_prop in H as [H1 H2].
  destruct (decide (r = r0)) as [->|]; [done|]. apply (IH (r0 + 1)); [done|lia].
Qed.

Lemma month_day_check leap n : 0 <= n < 365 -> month_day_ok leap n = true.
Proof.
  intros Hn. apply (all_from_spec 365 0); [|lia].
  destruct leap; vm_compute; reflexivity.
Qed.

Lemma is_leap_true_iff y : is_leap y = true <-> (y mod 4 = 0 /\ (y mod 100 <> 0 \/ y mod 400 = 0)).
Proof.
  unfold is_leap. rewrite andb_true_iff, orb_true_iff, negb_true_iff, !Z.eqb_eq, Z.eqb_neq. tauto.
Qed.

Lemma days_before_year_succ y : days_before_year (y + 1) = days_before_year y + 365 + leap_extra (is_leap y).
Proof.
  unfold days_before_year, leap_extra.
  destruct (is_leap y) eqn:E.
  - apply is_leap_true_iff in E. Z.div_mod_to_equations. lia.
  - assert (~ (y mod 4 = 0 /\ (y mod 100 <> 0 \/ y mod 400 = 0))) as H by (rewrite <- is_leap_true_iff; congruence).
    Z.div_mod_to_equations. lia.
Qed.

Lemma days_before_year_mono y y' : y <= y' -> days_before_year y <= days_before_year y'.
Proof. unfold days_before_year. intros. Z.div_mod_to_equations. lia. Qed.

Lemma is_leap_false_iff y : is_leap y = false <-> (y mod 4 <> 0 \/ (y mod 100 = 0 /\ y mod 400 <> 0)).
Proof.
  unfold is_leap. rewrite andb_false_iff, orb_false_iff, negb_false_iff, !Z.eqb_eq, !Z.eqb_neq. tauto.
Qed.

Lemma is_leap_parts a b c e :
  0 <= b <= 3 -> 0 <= c <= 24 -> 0 <= e <= 3 ->
  is_leap (a * 400 + 1 + b * 100 + c * 4 + e)
  = (e =? 3) && (negb (c =? 24) || (b =? 3)).
Proof.
  intros Hb Hc He.
  set (X := a * 400 + 1 + b * 100 + c * 4 + e).
  assert (X mod 4 = (e + 1) mod 4) as H4.
  { replace X with (e + 1 + (a * 100 + b * 25 + c) * 4) by (subst X; lia).
    apply Z.mod_add. lia. }
  assert (X mod 100 = (c * 4 + e + 1) mod 100) as H100.
  { replace X with (c * 4 + e + 1 + (a * 4 + b) * 100) by (subst X; lia).
    apply Z.mod_add. lia. }
  assert (X mod 400 = b * 100 + c * 4 + e + 1 - (if (b =? 3) && (c =? 24) && (e =? 3) then 400 else 0)) as H400.
  { destruct ((b =? 3) && (c =? 24) && (e =? 3)) eqn:E.
    - rewrite !andb_true_iff, !Z.eqb_eq in E. destruct E as [[-> ->] ->].
      replace X with (0 + (a + 1) * 400) by (subst X; lia).
      rewrite Z.mod_add by lia. reflexivity.
    - replace X with (b * 100 + c * 4 + e + 1 + a * 400) by (subst X; lia).
      rewrite Z.mod_add by lia. rewrite Z.mod_small; [lia|].
      rewrite !andb_false_iff, !Z.eqb_neq in E. lia. }
  clearbody X.
  destruct (Z.eqb_spec e 3) as [->|He3]; simpl.
  - destruct (Z.eqb_spec c 24) as [->|Hc24]; simpl.
    + destruct (Z.eqb_spec b 3) as [->|Hb3].
      * apply is_leap_true_iff. rewrite H4, H400. simpl. split; [done|by right].
      * apply is_leap_false_iff. right. rewrite H100, H400.
        replace ((b =? 3) && (24 =? 24) && (3 =? 3)) with false
          by (symmetry; rewrite !andb_false_iff, !Z.eqb_neq; lia).
        split; [done|simpl; lia].
    + apply is_leap_true_iff. rewrite H4, H100. split; [done|left].
      rewrite Z.mod_small; lia.
  - apply is_leap_false_iff. left. rewrite H4.
    assert (e = 0 \/ e = 1 \/ e = 2) as [->|[->| ->]] by lia; done.
Qed.

Lemma days_before_year_parts a b c e :
  0 <= b <= 3 -> 0 <= c <= 24 -> 0 <= e <= 3 ->
  days_before_year (a * 400 + 1 + b * 100 + c * 4 + e)
  = 146097 * a + 36524 * b + 1461 * c + 365 * e.
Proof. intros. unfold days_before_year. Z.div_mod_to_equations. lia. Qed.

Lemma ord2ymd_spec n : 1 <= n ->
  let '(y, m, d) := ord2ymd n in
  ymd2ord y m d = n /\ 1 <= y /\ 1 <= m <= 12 /\ 1 <= d <= days_in_month y m.
Proof.
  intros Hn. unfold ord2ymd.
  set (N := n - 1).
  set (a := N / DI400Y). set (r400 := N mod DI400Y).
  set (b := r400 / DI100Y). set (r100 := r400 mod DI100Y).
  set (c := r100 / DI4Y). set (r4 := r100 mod DI4Y).
  set (e := r4 / 365). set (r := r4 mod 365).
  assert (N = 146097 * a + r400 /\ 0 <= r400 < 146097 /\ 0 <= a) as (HN & Hr400 & Ha)
    by (subst a r400; unfold DI400Y; Z.div_mod_to_equations; lia).
  assert (r400 = 36524 * b + r100 /\ 0 <= r100 < 36524 /\ 0 <= b <= 4) as (H400 & Hr100 & Hb)
    by (subst b r100; unfold DI100Y; Z.div_mod_to_equations; lia).
  assert (r100 = 1461 * c + r4 /\ 0 <= r4 < 1461 /\ 0 <= c <= 24) as (H100 & Hr4 & Hc)
    by (subst c r4; unfold DI4Y; Z.div_mod_to_equations; lia).
  assert (r4 = 365 * e + r /\ 0 <= r < 365 /\ 0 <= e <= 4) as (H4 & Hr & He)
    by (subst e r; Z.div_mod_to_equations; lia).
  assert (n = N + 1) as HnN by (subst N; lia).
  clearbody a r400 b r100 c r4 e r N. subst n.
  destruct ((e =? 4) || (b =? 4)) eqn:Hsp.
  - assert (exists b' c', 0 <= b' <= 3 /\ 0 <= c' <= 24 /\
        a * 400 + 1 + b * 100 + c * 4 + e - 1 = a * 400 + 1 + b' * 100 + c' * 4 + 3
        /\ (c' <> 24 \/ b' = 3)
        /\ N + 1 = 146097 * a + 36524 * b' + 1461 * c' + 365 * 3 + 366)
      as (b' & c' & Hb' & Hc' & -> & Hlp & ->).
    { apply orb_true_iff in Hsp as [?%Z.eqb_eq| ?%Z.eqb_eq].
      - exists b, c. lia.
      - exists 3, 24. lia. }
    unfold ymd2ord, days_before_month, days_in_month.
    rewrite is_leap_parts, days_before_year_parts by lia.
    replace ((3 =? 3) && (negb (c' =? 24) || (b' =? 3))) with true; [simpl; lia|].
    symmetry. simpl. apply orb_true_iff. rewrite negb_true_iff, Z.eqb_neq, Z.eqb_eq. done.
  - apply orb_false_iff in Hsp as [He4%Z.eqb_neq Hb4%Z.eqb_neq].
    set (leap := (e =? 3) && (negb (c =? 24) || (b =? 3))).
    pose proof (month_day_check leap r Hr) as Hmd. unfold month_day_ok in Hmd.
    destruct (month_day leap r) as [m d].
    rewrite !andb_true_iff, !Z.leb_le, Z.eqb_eq in Hmd.
    destruct Hmd as ((((? & ?) & ?) & ?) & ?).
    unfold ymd2ord, days_before_month, days_in_month.
    rewrite is_leap_parts, days_before_year_parts by lia. fold leap.
    fold (leap_extra ((2 <? m) && leap)).
    split; [lia|]. split; [lia|]. split; [lia|].
    unfold leap_extra in *.
    destruct ((m =? 2) && leap) eqn:E2; [|lia].
    apply andb_true_iff in E2 as [->%Z.eqb_eq _]. simpl in *. lia.
Qed.

(** Dates order as their ordinals. *)
Lemma days_before_month_bound y m : 1 <= m <= 12 ->
  days_before_month y m + days_in_month y m <= 365 + leap_extra (is_leap y).
Proof.
  intros Hm. unfold days_before_month, days_in_month, leap_extra.
  assert (m = 1 \/ m = 2 \/ m = 3 \/ m = 4 \/ m = 5 \/ m = 6 \/ m = 7 \/ m = 8 \/ m = 9 \/ m = 10 \/ m = 11 \/ m = 12) as Hc by lia.
  destruct (is_leap y); repeat (destruct Hc as [->|Hc]; [simpl; lia|]); subst; simpl; lia.
Qed.

Lemma days_before_month_next y m m' : 1 <= m -> m < m' -> m' <= 12 ->
  days_before_month y m + days_in_month y m <= days_before_month y m'.
Proof.
  intros H1 H2 H3. unfold days_before_month, days_in_month.
  assert (m = 1 \/ m = 2 \/ m = 3 \/ m = 4 \/ m = 5 \/ m = 6 \/ m = 7 \/ m = 8 \/ m = 9 \/ m = 10 \/ m = 11) as Hc by lia.
  assert (m' = 2 \/ m' = 3 \/ m' = 4 \/ m' = 5 \/ m' = 6 \/ m' = 7 \/ m' = 8 \/ m' = 9 \/ m' = 10 \/ m' = 11 \/ m' = 12) as Hc' by lia.
  destruct (is_leap y);
    repeat (destruct Hc as [->|Hc]); subst;
    repeat (destruct Hc' as [->|Hc']); subst; simpl; lia.
Qed.

Lemma days_before_month_nonneg y m : 0 <= days_before_month y m.
Proof.
  unfold days_before_month.
  assert (0 <= DAYS_BEFORE_MONTH m) by (destruct m as [|p|p]; simpl; try lia; do 4 (try destruct p as [p|p|]); simpl; lia).
  destruct (_ && _); lia.
Qed.

Lemma ymd2ord_lt y m d y' m' d' :
  1 <= m <= 12 -> 1 <= d <= days_in_month y m ->
  1 <= m' <= 12 -> 1 <= d' <= days_in_month y' m' ->
  date_lt (y, m, d) (y', m', d') -> ymd2ord y m d < ymd2ord y' m' d'.
Proof.
  intros Hm Hd Hm' Hd' [Hy|[-> [Hlt|[-> Hlt]]]]; unfold ymd2ord.
  - pose proof (days_before_month_bound y m Hm).
    pose proof (days_before_year_succ y).
    pose proof (days_before_year_mono (y + 1) y' ltac:(lia)).
    pose proof (days_before_month_nonneg y' m'). lia.
  - pose proof (days_before_month_next y' m m' ltac:(lia) Hlt ltac:(lia)). lia.
  - lia.
Qed.
End CalendarFacts.

(** ** Datetime arithmetic *)

Section DatetimeFacts.
Import Calendar.

Lemma year_le_max y m d :
  1 <= m <= 12 -> 1 <= d -> ymd2ord y m d <= MAXORDINAL -> y <= MAXYEAR.
Proof.
  intros Hm Hd Ho. unfold ymd2ord, MAXORDINAL, MAXYEAR in *.
  destruct (decide (y <= 9999)) as [|Hgt]; [done|].
  pose proof (days_before_year_mono 10000 y ltac:(lia)) as H.
  pose proof (days_before_month_nonneg y m).
  change (days_before_year 10000) with 3652059 in H. lia.
Qed.

Lemma of_civil_us_ok t tz :
  0 < t / US_PER_DAY <= MAXORDINAL ->
  exists u, of_civil_us t tz = Ok u /\ civil_us u = t /\ utcoffset u = tz /\
    valid_date (year u) (month u) (day u) /\
    0 <= hour u < 24 /\ 0 <= minute u < 60 /\ 0 <= second u < 60 /\
    0 <= microsecond u < US_PER_SECOND.
Proof.
  intros Hr. unfold of_civil_us.
  destruct (Z.ltb_spec 0 (t / US_PER_DAY)) as [_|]; [|lia].
  destruct (Z.leb_spec (t / US_PER_DAY) MAXORDINAL) as [_|]; [|lia].
  simpl.
  pose proof (ord2ymd_spec (t / US_PER_DAY) ltac:(lia)) as Hs.
  destruct (ord2ymd (t / US_PER_DAY)) as [[y m] d].
  destruct Hs as (Hord & Hy & Hm & Hd).
  eexists. split; [reflexivity|].
  pose proof (year_le_max y m d Hm ltac:(lia) ltac:(lia)).
  unfold civil_us, valid_date. simpl. rewrite Hord.
  set (days := t / US_PER_DAY) in *. set (rem := t mod US_PER_DAY).
  set (secs := rem / US_PER_SECOND). set (us := rem mod US_PER_SECOND).
  assert (t = days * 86400000000 + rem /\ 0 <= rem < 86400000000) as [Ht Hrem]
    by (subst days rem; unfold US_PER_DAY, US_PER_SECOND; Z.div_mod_to_equations; lia).
  assert (rem = secs * 1000000 + us /\ 0 <= us < 1000000 /\ 0 <= secs < 86400) as (Hr1 & Hus & Hsecs)
    by (subst secs us; unfold US_PER_SECOND; Z.div_mod_to_equations; lia).
  clearbody days rem secs us.
  assert (secs = (secs / 3600) * 3600 + (secs mod 3600 / 60) * 60 + secs mod 60
          /\ 0 <= secs / 3600 < 24 /\ 0 <= secs mod 3600 / 60 < 60 /\ 0 <= secs mod 60 < 60)
    as (Hs1 & ? & ? & ?) by (Z.div_mod_to_equations; lia).
  unfold US_PER_SECOND, MINYEAR in *.
  repeat split; try lia.
Qed.

Lemma of_civil_us_overflow t tz :
  ~ (0 < t / US_PER_DAY <= MAXORDINAL) ->
  of_civil_us t tz = Raise (Exn OverflowError "date value out of range").
Proof.
  intros Hr. unfold of_civil_us.
  destruct (Z.ltb_spec 0 (t / US_PER_DAY)); simpl; [|done].
  destruct (Z.leb_spec (t / US_PER_DAY) MAXORDINAL); [lia|done].
Qed.

Lemma civil_us_s u : 0 <= microsecond u < US_PER_SECOND ->
  civil_us u / US_PER_SECOND = civil_s u /\ civil_us u mod US_PER_SECOND = microsecond u.
Proof.
  intros H. unfold civil_us, civil_s, US_PER_SECOND in *.
  Z.div_mod_to_equations; lia.
Qed.

Lemma of_civil_us_inv t tz u : of_civil_us t tz = Ok u -> 0 < t / US_PER_DAY <= MAXORDINAL.
Proof.
  intros H.
  destruct (decide (0 < t / US_PER_DAY <= MAXORDINAL)) as [|Hn]; [assumption|].
  pose proof (of_civil_us_overflow t tz Hn) as E. congruence.
Qed.

Lemma civil_s_of_us u t : civil_us u = t -> 0 <= microsecond u < US_PER_SECOND ->
  civil_s u = t / US_PER_SECOND.
Proof. intros <- H. symmetry. by apply civil_us_s. Qed.

Lemma astimezone_utc_ok d : utc_representable d ->
  exists u, astimezone_utc d = Ok u /\ civil_us u = instant d /\ utcoffset u = 0 /\
    valid_datetime u /\ civil_s u = instant_s d.
Proof.
  intros Hr.
  destruct (of_civil_us_ok (instant d) 0 Hr)
    as (u & Hu & Hc & Hz & Hv & Hh & Hm & Hs & Hus).
  exists u. split; [exact Hu|]. split; [exact Hc|]. split; [exact Hz|]. split.
  - unfold valid_datetime. rewrite Hz. split; [exact Hv|].
    unfold US_PER_DAY, US_PER_SECOND in *. lia.
  - apply civil_s_of_us; assumption.
Qed.

Lemma astimezone_utc_inv d u : astimezone_utc d = Ok u -> utc_representable d.
Proof. apply of_civil_us_inv. Qed.
End DatetimeFacts.

(** ** Texts *)

Section TextFacts.

Lemma append_cons x (a b : string) : String x a +:+ b = String x (a +:+ b).
Proof. reflexivity. Qed.

Lemma append_nil_l (a : string) : EmptyString +:+ a = a.
Proof. reflexivity. Qed.


Lemma digit_cases n : exists k, 0 <= k <= 9 /\ n mod 10 = k.
Proof. exists (n mod 10). split; [|done]. Z.div_mod_to_equations. lia. Qed.

Ltac digit_split n :=
  let k := fresh "k" in let Hk := fresh "Hk" in let E := fresh "E" in
  destruct (digit_cases n) as (k & Hk & E);
  assert (k = 0 \/ k = 1 \/ k = 2 \/ k = 3 \/ k = 4 \/ k = 5 \/ k = 6 \/ k = 7 \/ k = 8 \/ k = 9)
    as [->|[->|[->|[->|[->|[->|[->|[->|[->| ->]]]]]]]]] by lia.

Lemma digit_value_digit n : digit_value (digit n) = Some (n mod 10).
Proof. unfold digit. digit_split n; rewrite E; reflexivity. Qed.

Lemma N_of_digit n : Z.of_N (N_of_ascii (digit n)) = 48 + n mod 10.
Proof. unfold digit. digit_split n; rewrite E; reflexivity. Qed.

Lemma digit_not c n : digit_value c = None -> digit n <> c.
Proof. intros H <-. rewrite digit_value_digit in H. done. Qed.

Lemma zpad_length w n : String.length (zpad w n) = w.
Proof.
  revert n. induction w as [|w IH]; intros n; [done|]. simpl.
  generalize (IH (n / 10)). generalize (zpad w (n / 10)). clear.
  intros s. revert w. induction s as [|c s IH]; intros w Hw; simpl in *; [by subst|].
  destruct w; [done|]. f_equal. apply IH. lia.
Qed.




Lemma pretty_year y : 1 <= y <= 9999 -> pretty y = zpad (year_width y) y.
Proof.
  intros Hy. apply String.eqb_eq. change (year_text_ok y = true).
  apply (all_from_spec (Z.to_nat 9999) 1 year_text_ok); [vm_compute; reflexivity|].
  rewrite Z2Nat.id; lia.
Qed.


Lemma year_width_bound y : 1 <= y <= 9999 -> 0 <= y < 10 ^ Z.of_nat (year_width y).
Proof.
  intros Hy. unfold year_width.
  destruct (Z.ltb_spec y 10); [simpl; lia|]. destruct (Z.ltb_spec y 100); [simpl; lia|].
  destruct (Z.ltb_spec y 1000); simpl; lia.
Qed.



Lemma compare_refl (s : string) : String.compare s s = Eq.
Proof.
  induction s as [|c s IH]; [done|]. simpl.
  unfold Ascii.compare. by rewrite N.compare_refl.
Qed.

Lemma compare_app (p1 p2 s1 s2 : string) :
  String.length p1 = String.length p2 ->
  String.compare (p1 +:+ s1) (p2 +:+ s2) = lex (String.compare p1 p2) (String.compare s1 s2).
Proof.
  revert p2. induction p1 as [|c p1 IH]; intros [|c2 p2] Hl; try done.
  rewrite !append_cons. simpl. destruct (Ascii.compare c c2); try done.
  apply IH. simpl in Hl. lia.
Qed.

Lemma compare_digit x y :
  String.compare (String (digit x) EmptyString) (String (digit y) EmptyString)
  = (x mod 10 ?= y mod 10).
Proof.
  simpl. unfold Ascii.compare.
  rewrite <- N2Z.inj_compare, !N_of_digit, Z.add_compare_mono_l.
  by destruct (x mod 10 ?= y mod 10).
Qed.

Lemma lex_div10 x y : lex (x / 10 ?= y / 10) (x mod 10 ?= y mod 10) = (x ?= y).
Proof.
  unfold lex.
  destruct (Z.compare_spec (x / 10) (y / 10)) as [E|E|E];
  destruct (Z.compare_spec (x mod 10) (y mod 10)) as [E'|E'|E'];
  symmetry; first [apply Z.compare_eq_iff | apply Z.compare_lt_iff | apply Z.compare_gt_iff];
  Z.div_mod_to_equations; lia.
Qed.

Lemma compare_zpad w : forall x y,
  String.compare (zpad w x) (zpad w y) = (x mod 10 ^ Z.of_nat w ?= y mod 10 ^ Z.of_nat w).
Proof.
  induction w as [|w IH]; intros x y.
  - simpl. by rewrite !Z.mod_1_r.
  - cbn [zpad]. rewrite compare_app by (by rewrite !zpad_length).
    rewrite IH, compare_digit.
    rewrite Nat2Z.inj_succ, Z.pow_succ_r by lia.
    rewrite !(Z.rem_mul_r _ 10 (10 ^ Z.of_nat w)) by lia.
    set (a := (x / 10) mod 10 ^ Z.of_nat w). set (b := (y / 10) mod 10 ^ Z.of_nat w).
    rewrite <- (lex_div10 (x mod 10 + 10 * a) (y mod 10 + 10 * b)).
    replace ((x mod 10 + 10 * a) / 10) with a by (Z.div_mod_to_equations; lia).
    replace ((y mod 10 + 10 * b) / 10) with b by (Z.div_mod_to_equations; lia).
    replace ((x mod 10 + 10 * a) mod 10) with (x mod 10) by (Z.div_mod_to_equations; lia).
    replace ((y mod 10 + 10 * b) mod 10) with (y mod 10) by (Z.div_mod_to_equations; lia).
    done.
Qed.

Lemma compare_zpad_small w x y :
  0 <= x < 10 ^ Z.of_nat w -> 0 <= y < 10 ^ Z.of_nat w ->
  String.compare (zpad w x) (zpad w y) = (x ?= y).
Proof. intros Hx Hy. by rewrite compare_zpad, !Z.mod_small. Qed.

Lemma compare_field w x y c (r1 r2 : string) :
  0 <= x < 10 ^ Z.of_nat w -> 0 <= y < 10 ^ Z.of_nat w ->
  String.compare (zpad w x +:+ String c EmptyString +:+ r1)
                 (zpad w y +:+ String c EmptyString +:+ r2)
  = lex (x ?= y) (String.compare r1 r2).
Proof.
  intros Hx Hy. rewrite compare_app by (by rewrite !zpad_length).
  rewrite compare_zpad_small by done. f_equal.
  rewrite !append_cons, !append_nil_l. simpl.
  unfold Ascii.compare. by rewrite N.compare_refl.
Qed.


Lemma lex_Eq c1 c2 : lex c1 c2 = Eq <-> c1 = Eq /\ c2 = Eq.
Proof. destruct c1; simpl; split; try done; by intros [? ?]. Qed.

(** The six fields the rendering shows. *)
Lemma fields_compare_Eq a b :
  lex (year a ?= year b) (lex (month a ?= month b) (lex (day a ?= day b)
    (lex (hour a ?= hour b) (lex (minute a ?= minute b) (second a ?= second b)))))
  = Eq <->
  year a = year b /\ month a = month b /\ day a = day b /\
  hour a = hour b /\ minute a = minute b /\ second a = second b.
Proof. rewrite !lex_Eq, !Z.compare_eq_iff. tauto. Qed.
End TextFacts.

(** ** Orders *)

Section OrderFacts.
Import Calendar.

Lemma date_compare y m d y' m' d' :
  1 <= m <= 12 -> 1 <= d <= days_in_month y m ->
  1 <= m' <= 12 -> 1 <= d' <= days_in_month y' m' ->
  lex (y ?= y') (lex (m ?= m') (d ?= d')) = (ymd2ord y m d ?= ymd2ord y' m' d').
Proof.
  intros Hm Hd Hm' Hd'. unfold lex.
  destruct (Z.compare_spec y y') as [Ey|Ey|Ey];
    [destruct (Z.compare_spec m m') as [Em|Em|Em];
      [destruct (Z.compare_spec d d') as [Ed|Ed|Ed]|..]|..];
    symmetry.
  - apply Z.compare_eq_iff. by subst.
  - apply Z.compare_lt_iff, ymd2ord_lt; try done. right. split; [done|]. right. done.
  - apply Z.compare_gt_iff, ymd2ord_lt; try done. right. split; [done|]. right. done.
  - apply Z.compare_lt_iff, ymd2ord_lt; try done. right. split; [done|]. by left.
  - apply Z.compare_gt_iff, ymd2ord_lt; try done. right. split; [done|]. by left.
  - apply Z.compare_lt_iff, ymd2ord_lt; try done. by left.
  - apply Z.compare_gt_iff, ymd2ord_lt; try done. by left.
Qed.

Lemma lex_assoc a b c : lex a (lex b c) = lex (lex a b) c.
Proof. by destruct a. Qed.

Lemma civil_s_compare a b :
  valid_datetime a -> valid_datetime b ->
  lex (year a ?= year b) (lex (month a ?= month b) (lex (day a ?= day b)
    (lex (hour a ?= hour b) (lex (minute a ?= minute b) (second a ?= second b)))))
  = (civil_s a ?= civil_s b).
Proof.
  intros ((Hy & Hm & Hd) & Hh & Hmi & Hs & _) ((Hy' & Hm' & Hd') & Hh' & Hmi' & Hs' & _).
  rewrite (lex_assoc (day a ?= day b)), (lex_assoc (month a ?= month b)), (lex_assoc (year a ?= year b)).
  rewrite <- !lex_assoc.
  rewrite (lex_assoc (year a ?= year b)), (lex_assoc (lex _ _) (day a ?= day b)).
  rewrite <- (lex_assoc (year a ?= year b)).
  rewrite date_compare by done.
  unfold civil_s.
  set (o := ymd2ord (year a) (month a) (day a)).
  set (o' := ymd2ord (year b) (month b) (day b)). clearbody o o'.
  unfold lex.
  destruct (Z.compare_spec o o'); [|symmetry; first [apply Z.compare_lt_iff|apply Z.compare_gt_iff]; lia..].
  destruct (Z.compare_spec (hour a) (hour b)); [|symmetry; first [apply Z.compare_lt_iff|apply Z.compare_gt_iff]; lia..].
  destruct (Z.compare_spec (minute a) (minute b)); [|symmetry; first [apply Z.compare_lt_iff|apply Z.compare_gt_iff]; lia..].
  destruct (Z.compare_spec (second a) (second b)); symmetry;
    first [apply Z.compare_eq_iff|apply Z.compare_lt_iff|apply Z.compare_gt_iff]; lia.
Qed.

Lemma valid_datetime_ranges u : valid_datetime u ->
  0 <= year u < 10000 /\ 0 <= month u < 100 /\ 0 <= day u < 100 /\
  0 <= hour u < 100 /\ 0 <= minute u < 100 /\ 0 <= second u < 100.
Proof.
  intros ((Hy & Hm & Hd) & Hh & Hmi & Hs & _). unfold MINYEAR, MAXYEAR in Hy.
  assert (days_in_month (year u) (month u) <= 31).
  { unfold days_in_month. destruct (_ && _); [lia|].
    assert (month u = 1 \/ month u = 2 \/ month u = 3 \/ month u = 4 \/ month u = 5 \/ month u = 6 \/ month u = 7 \/ month u = 8 \/ month u = 9 \/ month u = 10 \/ month u = 11 \/ month u = 12) as Hc by lia.
    repeat (destruct Hc as [->|Hc]; [simpl; lia|]). rewrite Hc. simpl. lia. }
  lia.
Qed.



(** Two valid times in the same second show the same six fields. *)
Lemma same_second_fields a b :
  valid_datetime a -> valid_datetime b -> civil_s a = civil_s b ->
  year a = year b /\ month a = month b /\ day a = day b /\
  hour a = hour b /\ minute a = minute b /\ second a = second b.
Proof.
  intros Ha Hb E. apply fields_compare_Eq. rewrite civil_s_compare by done.
  by apply Z.compare_eq_iff.
Qed.

Lemma string_le_compare (s1 s2 : string) : String.le s1 s2 <-> String.compare s1 s2 <> Gt.
Proof.
  unfold String.le, String.leb. destruct (String.compare s1 s2); simpl; split; try done.
Qed.

(** The order of the sort key. *)
Lemma compare_lt_le (s1 s2 : string) :
  String.compare s1 s2 = Lt <-> (String.le s1 s2 /\ s1 <> s2).
Proof.
  rewrite string_le_compare. split.
  - intros H. split; [congruence|]. intros ->. rewrite compare_refl in H. done.
  - intros [H1 H2]. destruct (String.compare s1 s2) eqn:E; try done.
    apply String.compare_eq_iff in E. done.
Qed.

Lemma sort_key_le_iff r1 r2 :
  sort_key_le r1 r2 <->
  (String.le (created r1) (created r2) /\ created r1 <> created r2)
  \/ (created r1 = created r2 /\ String.le (name r1) (name r2)).
Proof.
  unfold sort_key_le. destruct (String.compare (created r1) (created r2)) eqn:E.
  - apply String.compare_eq_iff in E. split; [by right|]. intros [[_ ?]|[_ ?]]; done.
  - apply compare_lt_le in E. split; [by left|done].
  - split; [done|]. intros [[H _]|[H _]].
    + apply string_le_compare in H. done.
    + rewrite H, compare_refl in E. done.
Qed.

Global Instance sort_key_le_trans : Transitive sort_key_le.
Proof.
  intros r1 r2 r3. rewrite !sort_key_le_iff.
  intros [[H1 N1]|[E1 H1]] [[H2 N2]|[E2 H2]].
  - left. split; [by etrans|]. intros E. rewrite E in H1.
    apply N2. by apply (anti_symm String.le).
  - left. rewrite <- E2. done.
  - left. rewrite E1. done.
  - right. split; [congruence|by etrans].
Qed.

Global Instance sort_key_le_antisym : AntiSymm (=) sort_key_le.
Proof.
  intros [n1 c1] [n2 c2]. rewrite !sort_key_le_iff. simpl.
  intros [[H1 N1]|[E1 H1]] [[H2 N2]|[E2 H2]].
  - exfalso. apply N1. by apply (anti_symm String.le).
  - congruence.
  - congruence.
  - f_equal; [|done]. by apply (anti_symm String.le).
Qed.

Global Instance sort_key_le_total : Total sort_key_le.
Proof.
  intros r1 r2. rewrite !sort_key_le_iff.
  destruct (decide (created r1 = created r2)) as [E|N].
  - destruct (total String.le (name r1) (name r2)); [left|right]; right; done.
  - destruct (total String.le (created r1) (created r2)); [left|right]; left; done.
Qed.


Lemma sort_rows_perm rows : sort_rows rows ≡ₚ rows.
Proof. apply merge_sort_Permutation. Qed.


End OrderFacts.

(** ** Enumerators *)

Section EnumeratorFacts.

Lemma emit_ok display_name t : utc_representable t ->
  exists u, astimezone_utc t = Ok u /\
    emit display_name t = Yield (mk_record (py_str display_name) (strftime_iso u)).
Proof.
  intros Hr. destruct (astimezone_utc_ok t Hr) as (u & Hu & _).
  exists u. split; [exact Hu|]. unfold emit. by rewrite Hu.
Qed.

Lemma emit_inv display_name t r : emit display_name t = Yield r ->
  exists u, astimezone_utc t = Ok u /\ r = mk_record (py_str display_name) (strftime_iso u).
Proof.
  unfold emit. destruct (astimezone_utc t) as [u|e]; [|done].
  intros [= <-]. by exists u.
Qed.

Lemma datetime_le_iff a b : datetime_le a b = true <-> instant a <= instant b.
Proof. unfold datetime_le. apply Z.leb_le. Qed.

Context {A : Type} (body : A -> step).

Lemma run_items_app (l1 l2 : list A) :
  run_items body (l1 ++ l2) =
  match run_items body l1 with
  | (rs, Some e) => (rs, Some e)
  | (rs, None) => let '(rs', e) := run_items body l2 in (rs ++ rs', e)
  end.
Proof.
  induction l1 as [|x l1 IH]; simpl.
  - by destruct (run_items body l2).
  - destruct (body x); [done| |done].
    rewrite IH. destruct (run_items body l1) as [rs [e|]]; [done|].
    by destruct (run_items body l2).
Qed.

Lemma run_items_skip (l1 l2 : list A) x : body x = Skip ->
  run_items body (l1 ++ x :: l2) = run_items body (l1 ++ l2).
Proof.
  intros Hx. rewrite !run_items_app. simpl. by rewrite Hx.
Qed.

Lemma run_items_yield (l1 l2 : list A) x r rs1 : body x = Yield r ->
  run_items body l1 = (rs1, None) ->
  run_items body (l1 ++ x :: l2) =
  let '(rs2, e) := run_items body l2 in (rs1 ++ r :: rs2, e).
Proof.
  intros Hx H1. rewrite run_items_app, H1. simpl. rewrite Hx.
  by destruct (run_items body l2).
Qed.

Lemma run_pages_flat (ps : list (page A)) last :
  run_pages body ps last =
  match run_items body (concat (page_items <$> ps)) with
  | (rs, Some e) => (rs, Some e)
  | (rs, None) => (rs, last)
  end.
Proof.
  induction ps as [|p ps IH]; [done|]. cbn [run_pages fmap list_fmap concat].
  rewrite run_items_app, IH.
  destruct (run_items body (page_items p)) as [rs [e|]]; [done|].
  destruct (run_items body (concat (page_items <$> ps))) as [rs' [e|]]; done.
Qed.
End EnumeratorFacts.

(** ** Names and skipped items *)

Section NameFacts.

Lemma truthy_Some v : truthy (Some v) = true <-> v <> EmptyString.
Proof. unfold truthy. destruct (decide (v = EmptyString)); split; done. Qed.

Lemma py_or_truthy a b : truthy a = true -> py_or a b = a.
Proof. unfold py_or. by intros ->. Qed.

Lemma py_or_falsy a b : truthy a = false -> py_or a b = b.
Proof. unfold py_or. by intros ->. Qed.

Lemma py_str_truthy v : truthy v = true -> py_str v <> EmptyString.
Proof. destruct v as [s|]; [|done]. simpl. by intros ?%truthy_Some. Qed.

Lemma ebs_display_name_truthy snap : truthy (ebs_display_name snap) = true.
Proof.
  unfold ebs_display_name.
  destruct (truthy (py_or (py_or (name_tag_of match Tags snap with Some l => l | None => [] end)
                                  (Description snap)) (SnapshotId snap))) eqn:E.
  - by rewrite py_or_truthy.
  - by rewrite py_or_falsy.
Qed.

Lemma ebs_items_name cutoff_dt snap r :
  ExtractSnapshots.ebs_item cutoff_dt snap = Yield r \/ ListEbsSnapshots.ebs_item snap = Yield r ->
  name r = py_str (ebs_display_name snap).
Proof.
  unfold ExtractSnapshots.ebs_item, ListEbsSnapshots.ebs_item.
  destruct (StartTime snap) as [| | |t]; try (by intros [|]).
  destruct (datetime_le t cutoff_dt); intros [H|H]; try done;
    apply emit_inv in H as (u & _ & ->); done.
Qed.

Lemma name_tag_of_spec tags v :
  name_tag_of tags = v <->
  (Forall (fun t => Key t <> Some "Name"%string) tags /\ v = None)
  \/ exists pre t post, tags = pre ++ t :: post /\
       Forall (fun t' => Key t' <> Some "Name"%string) pre /\
       Key t = Some "Name"%string /\ Value t = v.
Proof.
  revert v. induction tags as [|t tags IH]; intros v; simpl.
  - split.
    + intros <-. left. split; [constructor|done].
    + intros [[_ ->]|(pre & t & post & E & _)]; [done|]. by destruct pre.
  - destruct (decide (Key t = Some "Name"%string)) as [Hk|Hk].
    + split.
      * intros <-. right. exists [], t, tags. repeat split; first [done|by constructor].
      * intros [[Hf _]|(pre & t' & post & E & Hf & Hk' & <-)].
        { by inversion Hf. }
        destruct pre as [|p pre]; simplify_eq/=; [done|]. by inversion Hf.
    + rewrite IH. split.
      * intros [[Hf ->]|(pre & t' & post & -> & Hf & Hk' & <-)].
        { left. split; [by constructor|done]. }
        right. exists (t :: pre), t', post. repeat split; first [done|by constructor].
      * intros [[Hf ->]|(pre & t' & post & E & Hf & Hk' & <-)].
        { left. split; [by inversion Hf|done]. }
        destruct pre as [|p pre]; simplify_eq/=.
        right. exists pre, t', post. repeat split; first [done|by inversion Hf].
Qed.

Lemma skip_is_silent {A : Type} (body : A -> step) (bad : A) :
  body bad = Skip -> skips_silently body bad.
Proof.
  intros Hb. split; [done|]. intros ps1 pre post ps2 last.
  assert (forall x, concat (page_items <$> (ps1 ++ Some (pre ++ x :: post) :: ps2))
            = (concat (page_items <$> ps1) ++ pre) ++ x :: (post ++ concat (page_items <$> ps2))) as Hx.
  { intros x. rewrite fmap_app, concat_app. simpl. by rewrite <- !app_assoc. }
  assert (concat (page_items <$> (ps1 ++ Some (pre ++ post) :: ps2))
            = (concat (page_items <$> ps1) ++ pre) ++ (post ++ concat (page_items <$> ps2))) as Hn.
  { rewrite fmap_app, concat_app. simpl. by rewrite <- !app_assoc. }
  split.
  - rewrite !run_pages_flat, Hx, Hn. by rewrite run_items_skip.
  - intros good r rs1 Hg Hpre.
    rewrite !run_pages_flat, !Hx.
    rewrite (run_items_yield body _ _ good r rs1 Hg Hpre).
    rewrite (run_items_skip body _ _ bad Hb).
    rewrite (run_items_app body (concat (page_items <$> ps1) ++ pre)), Hpre.
    destruct (run_items body (post ++ concat (page_items <$> ps2))) as [rs2 [e|]]; eauto.
Qed.

Lemma gets_record {A : Type} (body : A -> step) (x : A) (keep : Prop) (p : paginated A) :
  (keep -> exists r, body x = Yield r) -> (~ keep -> body x = Skip) -> keep \/ ~ keep ->
  gets_record_iff body x keep p (run_pages body (pages p) (failure p)).
Proof.
  intros Hy Hs Hd ps1 pre post ps2 Hp. rewrite Hp.
  assert (concat (page_items <$> (ps1 ++ Some (pre ++ x :: post) :: ps2))
            = (concat (page_items <$> ps1) ++ pre) ++ x :: (post ++ concat (page_items <$> ps2))) as Hx.
  { rewrite fmap_app, concat_app. simpl. by rewrite <- !app_assoc. }
  assert (concat (page_items <$> (ps1 ++ Some (pre ++ post) :: ps2))
            = (concat (page_items <$> ps1) ++ pre) ++ (post ++ concat (page_items <$> ps2))) as Hn.
  { rewrite fmap_app, concat_app. simpl. by rewrite <- !app_assoc. }
  assert (~ keep ->
          run_pages body (ps1 ++ Some (pre ++ x :: post) :: ps2) (failure p)
          = run_pages body (ps1 ++ Some (pre ++ post) :: ps2) (failure p)) as Hskip.
  { intros Hk. rewrite !run_pages_flat, Hx, Hn. by rewrite (run_items_skip body _ _ x (Hs Hk)). }
  split; [exact Hskip|]. intros rs1 Hpre. split.
  - intros (r & rs2 & e & _ & Hw & Hwo). destruct Hd as [Hk|Hk]; [exact Hk|exfalso].
    rewrite (Hskip Hk), Hwo in Hw. injection Hw as Hw.
    apply app_inv_head in Hw. apply (f_equal length) in Hw. simpl in Hw. lia.
  - intros Hk. destruct (Hy Hk) as [r Hr].
    rewrite !run_pages_flat, Hx, Hn.
    rewrite (run_items_yield body _ _ x r rs1 Hr Hpre).
    rewrite (run_items_app body (concat (page_items <$> ps1) ++ pre)), Hpre.
    destruct (run_items body (post ++ concat (page_items <$> ps2))) as [rs2 [e|]]; eauto 10.
Qed.

Lemma name_tag_of_skip pre rest :
  Forall not_Name pre -> name_tag_of (pre ++ rest) = name_tag_of rest.
Proof.
  induction 1 as [|x l Hx _ IH]; [done|]. simpl. by rewrite decide_False.
Qed.

Lemma no_name_value_falsy tags : no_name_value tags -> truthy (name_tag_of tags) = false.
Proof.
  intros [Hf|(pre & t & post & -> & Hf & Hk & Hv)].
  - rewrite <- (app_nil_r tags). by rewrite name_tag_of_skip.
  - rewrite name_tag_of_skip by done. simpl. by rewrite decide_True.
Qed.

End NameFacts.

(** ** Serialization *)

Section SerializationFacts.



(** What [emit] yields: the name as a string with the rendering of the UTC
    conversion, a valid time in the second of the instant. *)
Lemma emit_utc n t r : emit n t = Yield r ->
  exists u, astimezone_utc t = Ok u /\ r = mk_record (py_str n) (strftime_iso u) /\
    valid_datetime u /\ utcoffset u = 0 /\ civil_s u = instant_s t.
Proof.
  intros (u & Hu & ->)%emit_inv.
  destruct (astimezone_utc_ok t (astimezone_utc_inv _ _ Hu))
    as (u' & Hu' & _ & Hz & Hv & Hs).
  assert (u' = u) as -> by congruence. by exists u.
Qed.









Lemma contains_app c (a b : string) : contains c (a +:+ b) = contains c a || contains c b.
Proof.
  induction a as [|x a IH]; [done|]. rewrite append_cons. simpl.
  destruct (decide (c = x)); [done|]. exact IH.
Qed.

Lemma contains_zpad c w n : digit_value c = None -> contains c (zpad w n) = false.
Proof.
  intros Hc. revert n. induction w as [|w IH]; intros n; [done|].
  cbn [zpad]. rewrite contains_app, IH. simpl.
  destruct (decide (c = digit n)) as [->|]; [|done].
  by rewrite digit_value_digit in Hc.
Qed.

Lemma contains_strftime c u :
  1 <= year u <= 9999 ->
  digit_value c = None -> contains c "-:TZ" = false -> contains c (strftime_iso u) = false.
Proof.
  intros Hy Hd Hs. unfold strftime_iso. rewrite pretty_year by done.
  rewrite !contains_app, !contains_zpad by done.
  simpl in *. repeat case_decide; done.
Qed.

Lemma emitted_created r : emitted r ->
  contains TAB_CHAR (created r) = false /\ contains NEWLINE_CHAR (created r) = false.
Proof.
  intros (n & t & (u & _ & -> & ((Hy & _) & _) & _)%emit_utc). cbn [created].
  unfold Calendar.MINYEAR, Calendar.MAXYEAR in Hy.
  split; by apply contains_strftime.
Qed.

(** Digits end at the first dash. *)
Lemma split_at_dash (s1 s2 r1 r2 : string) :
  contains "-" s1 = false -> contains "-" s2 = false ->
  s1 +:+ String "-" r1 = s2 +:+ String "-" r2 -> s1 = s2 /\ r1 = r2.
Proof.
  revert s2. induction s1 as [|c s1 IH]; intros [|c2 s2] H1 H2 E.
  - rewrite !append_nil_l in E. by simplify_eq.
  - rewrite append_nil_l, append_cons in E. simpl in H2.
    destruct (decide ("-"%char = c2)); [done|]. by simplify_eq.
  - rewrite append_nil_l, append_cons in E. simpl in H1.
    destruct (decide ("-"%char = c)); [done|]. by simplify_eq.
  - rewrite !append_cons in E. simpl in H1, H2.
    destruct (decide ("-"%char = c)); [done|]. destruct (decide ("-"%char = c2)); [done|].
    injection E as -> E. by destruct (IH s2 H1 H2 E) as [-> ->].
Qed.

Lemma zpad_inj w x y :
  0 <= x < 10 ^ Z.of_nat w -> 0 <= y < 10 ^ Z.of_nat w -> zpad w x = zpad w y -> x = y.
Proof.
  intros Hx Hy E. apply Z.compare_eq_iff.
  rewrite <- (compare_zpad_small w x y Hx Hy), E. apply compare_refl.
Qed.

(** The rendering shows the six fields, whatever the width of the year. *)
Lemma strftime_iso_inj a b :
  valid_datetime a -> valid_datetime b ->
  (strftime_iso a = strftime_iso b <->
   year a = year b /\ month a = month b /\ day a = day b /\
   hour a = hour b /\ minute a = minute b /\ second a = second b).
Proof.
  intros Ha Hb. split.
  - pose proof (valid_datetime_ranges a Ha) as (? & ? & ? & ? & ? & ?).
    pose proof (valid_datetime_ranges b Hb) as (? & ? & ? & ? & ? & ?).
    destruct Ha as ((Hya & _) & _), Hb as ((Hyb & _) & _).
    unfold Calendar.MINYEAR, Calendar.MAXYEAR in Hya, Hyb.
    unfold strftime_iso. rewrite !pretty_year by done. intros E.
    apply split_at_dash in E as [Ey Et]; [|by apply contains_zpad..].
    assert (year_width (year a) = year_width (year b)) as Ew
      by (by rewrite <- (zpad_length (year_width (year a)) (year a)), Ey, zpad_length).
    rewrite Ew in Ey. apply zpad_inj in Ey;
      [|rewrite <- Ew; by apply year_width_bound|by apply year_width_bound].
    split; [exact Ey|].
    assert (lex (month a ?= month b) (lex (day a ?= day b)
              (lex (hour a ?= hour b) (lex (minute a ?= minute b) (second a ?= second b))))
            = Eq) as Hl.
    { rewrite <- (compare_refl (zpad 2 (month a) +:+ "-" +:+ zpad 2 (day a) +:+ "T"
                                +:+ zpad 2 (hour a) +:+ ":" +:+ zpad 2 (minute a) +:+ ":"
                                +:+ zpad 2 (second a) +:+ "Z")).
      rewrite Et at 2.
      rewrite !compare_field by (simpl; lia).
      rewrite compare_app by (by rewrite !zpad_length).
      rewrite compare_zpad_small by (simpl; lia).
      simpl. by destruct (second a ?= second b). }
    rewrite !lex_Eq, !Z.compare_eq_iff in Hl. tauto.
  - intros (Hy & Hm & Hd & Hh & Hmi & Hs). unfold strftime_iso.
    by rewrite Hy, Hm, Hd, Hh, Hmi, Hs.
Qed.

Lemma lines_of_line (s rest : string) :
  contains NEWLINE_CHAR s = false ->
  lines_of ((s +:+ NEWLINE) +:+ rest) = s :: lines_of rest.
Proof.
  induction s as [|c s IH]; intros Hc.
  - rewrite append_nil_l. unfold NEWLINE. rewrite append_cons, append_nil_l. reflexivity.
  - rewrite !append_cons. simpl in Hc |- *. unfold NEWLINE_CHAR in Hc.
    destruct (decide ("010"%char = c)) as [|Hne]; [done|].
    rewrite decide_False by done. by rewrite IH.
Qed.

Lemma rsplit_tab_none s : contains TAB_CHAR s = false -> rsplit_tab s = None.
Proof.
  induction s as [|c s IH]; [done|]. simpl. unfold TAB_CHAR.
  destruct (decide ("009"%char = c)) as [|Hne]; [done|].
  intros H. rewrite IH by done. by rewrite decide_False.
Qed.

Lemma rsplit_tab_row (n c : string) :
  contains TAB_CHAR c = false -> rsplit_tab (n +:+ TAB +:+ c) = Some (n, c).
Proof.
  intros Hc. induction n as [|x n IH].
  - rewrite append_nil_l. unfold TAB. rewrite append_cons, append_nil_l.
    cbn [rsplit_tab]. by rewrite rsplit_tab_none.
  - rewrite append_cons. simpl. by rewrite IH.
Qed.

End SerializationFacts.

(** ** Aggregation and regions *)

Section MainFacts.
Import ExtractSnapshots.

Lemma extend_isolated what region g rows out :
  remote_failure_only (mk_call what region g) ->
  extend what region g (rows, out)
  = ((rows ++ call_records (mk_call what region g),
      out ++ call_warnings (mk_call what region g)), None).
Proof.
  intros Hc. unfold extend, call_records, call_warnings. destruct g as [rs [e|]]; simpl.
  - rewrite (Hc e) by done. done.
  - by rewrite app_nil_r.
Qed.

Lemma visit_region_isolated a s cutoff_dt region rows out :
  Forall remote_failure_only (calls_for a s cutoff_dt region) ->
  visit_region a s cutoff_dt region (rows, out)
  = ((rows ++ concat (call_records <$> calls_for a s cutoff_dt region),
      out ++ concat (call_warnings <$> calls_for a s cutoff_dt region)), None).
Proof.
  unfold visit_region, calls_for.
  destruct (include_ebs a), (include_rds a); cbn [app fmap list_fmap concat];
    rewrite ?Forall_cons, ?app_nil_r.
  - intros (H1 & H2 & H3 & _).
    rewrite (extend_isolated _ _ _ _ _ H1), (extend_isolated _ _ _ _ _ H2),
      (extend_isolated _ _ _ _ _ H3).
    by rewrite <- !app_assoc.
  - intros (H1 & _). by rewrite (extend_isolated _ _ _ _ _ H1).
  - intros (H2 & H3 & _).
    rewrite (extend_isolated _ _ _ _ _ H2), (extend_isolated _ _ _ _ _ H3).
    by rewrite <- !app_assoc.
  - done.
Qed.

Lemma aggregate_isolated a s cutoff_dt regions : forall rows out,
  Forall remote_failure_only (all_calls a s cutoff_dt regions) ->
  aggregate a s cutoff_dt regions (rows, out)
  = ((rows ++ concat (call_records <$> all_calls a s cutoff_dt regions),
      out ++ concat (call_warnings <$> all_calls a s cutoff_dt regions)), None).
Proof.
  unfold all_calls. induction regions as [|region regions IH]; intros rows out Hf.
  - simpl. by rewrite !app_nil_r.
  - cbn [fmap list_fmap concat] in Hf |- *. apply Forall_app in Hf as [H1 H2].
    cbn [aggregate]. rewrite (visit_region_isolated _ _ _ _ _ _ H1), (IH _ _ H2).
    by rewrite !fmap_app, !concat_app, <- !app_assoc.
Qed.

Lemma sorted_set_spec l :
  StronglySorted String.le (sorted_set l) /\ NoDup (sorted_set l) /\
  forall x, x ∈ sorted_set l <-> x ∈ l.
Proof.
  unfold sorted_set. split; [|split].
  - apply StronglySorted_merge_sort; apply _.
  - rewrite merge_sort_Permutation. apply NoDup_elements.
  - intros x. rewrite merge_sort_Permutation, elem_of_elements. apply elem_of_list_to_set.
Qed.

Lemma region_kept_spec r :
  region_kept r = true <-> truthy (RegionName r) = true /\ accepted_status (OptInStatus r).
Proof.
  unfold region_kept, accepted_status. rewrite andb_true_iff.
  destruct (OptInStatus r) as [st|]; [|tauto].
  destruct (decide (st = "opt-in-not-required"%string)) as [->|H1]; [tauto|].
  destruct (decide (st = "opted-in"%string)) as [->|H2]; [tauto|].
  split; [by intros [_ ?]|]. intros [_ [?|[?|?]]]; congruence.
Qed.

Lemma resolve_regions_fatal a s x w :
  resolve_regions a s = inl x ->
  build_session w (profile a) = Ok s ->
  x <> Returns /\ exit_status (main w a) = 1 /\ written (main w a) = None.
Proof.
  intros Hr Hs. split.
  - unfold resolve_regions in Hr. destruct (all_regions a).
    + destruct (list_opted_in_regions s) as [|e]; [done|].
      destruct (is_Exception e); by simplify_eq.
    + destruct (truthy _); by simplify_eq.
  - unfold main. rewrite Hs. destruct (cutoff_of _ _); [|done].
    rewrite Hr. unfold exit_status. simpl.
    unfold resolve_regions in Hr. destruct (all_regions a).
    + destruct (list_opted_in_regions s) as [|e]; [done|].
      destruct (is_Exception e); by simplify_eq.
    + destruct (truthy _); by simplify_eq.
Qed.

End MainFacts.

(** * The claims *)

Ltac by_computation :=
  vm_compute; repeat split; first [reflexivity | discriminate | congruence].

Section Claims.
Import ExtractSnapshots.

(** C1, as stated, fails for [list_ebs_snapshots.py]: that script has no
    cutoff at all, and lists a well-formed item created at the very instant
    of the run, which is strictly newer than the cutoff thirty days before. *)
Lemma list_ebs_emits_newer_than_cutoff :
  well_formed sample_now /\
  cutoff_of sample_now 30 = Ok sample_cutoff /\
  ~ ((exists r, ListEbsSnapshots.ebs_item
                  (mk_ebs (PyDatetime sample_now) None None (Some "snap-123"%string))
                = Yield r)
     <-> instant sample_now <= instant sample_cutoff).
Proof.
  split; [|split].
  - unfold well_formed, valid_datetime, Calendar.valid_date, utc_representable.
    by_computation.
  - vm_compute. reflexivity.
  - intros [H _].
    assert (instant sample_now <= instant sample_cutoff) as Hle
      by (apply H; eexists; vm_compute; reflexivity).
    vm_compute in Hle. congruence.
Qed.

(** C1 (amended).  Take an item of a paginated answer whose creation-time
    field is a well-formed datetime [d] (valid fields, UTC conversion
    within the years 1 to 9999).  In each of the three enumerators of
    [extract_snapshots.py], when the client is built and no earlier item
    of the answer makes the enumerator raise, the enumeration has a record
    for the item, in its place among the records, if and only if the
    instant of [d] is at or before the instant of the cutoff: an item
    created exactly at the cutoff is included, and for a strictly newer
    one the enumeration is that of the answer without the item.  The loop
    of [list_ebs_snapshots.py] applies no cutoff: under the same condition
    it has a record for every such item.  The cutoff that [main] computes
    from the time of the run and the number of days is the instant that
    many days earlier. *)
Theorem extract_enumerators_filter_at_cutoff (cutoff_dt d : datetime) :
  well_formed d ->
  (forall s region snap, StartTime snap = PyDatetime d ->
     ec2_client s (Some region) = None ->
     gets_record_iff (ebs_item cutoff_dt) snap (instant d <= instant cutoff_dt)
       (describe_snapshots s region) (get_ebs_snapshots s region cutoff_dt)) /\
  (forall s region snap, db_SnapshotCreateTime snap = PyDatetime d ->
     rds_client s (Some region) = None ->
     gets_record_iff (rds_instance_item cutoff_dt) snap (instant d <= instant cutoff_dt)
       (describe_db_snapshots s region) (get_rds_instance_snapshots s region cutoff_dt)) /\
  (forall s region snap, dbc_SnapshotCreateTime snap = PyDatetime d ->
     rds_client s (Some region) = None ->
     gets_record_iff (rds_cluster_item cutoff_dt) snap (instant d <= instant cutoff_dt)
       (describe_db_cluster_snapshots s region)
       (get_rds_cluster_snapshots s region cutoff_dt)) /\
  (forall p snap, StartTime snap = PyDatetime d ->
     gets_record_iff ListEbsSnapshots.ebs_item snap True p
       (run_pages ListEbsSnapshots.ebs_item (pages p) (failure p))) /\
  (forall now n, cutoff_of now n = Ok cutoff_dt ->
     instant cutoff_dt = instant now - n * US_PER_DAY).
Proof.
  intros [_ Hr].
  assert (forall n, instant d <= instant cutoff_dt ->
            exists r, (if datetime_le d cutoff_dt then emit n d else Skip) = Yield r) as Hyes.
  { intros n Hle. apply datetime_le_iff in Hle. rewrite Hle.
    destruct (emit_ok n d Hr) as (u & _ & ->). eauto. }
  assert (forall n, ~ instant d <= instant cutoff_dt ->
            (if datetime_le d cutoff_dt then emit n d else Skip) = Skip) as Hno.
  { intros n Hgt. destruct (datetime_le d cutoff_dt) eqn:E; [|done].
    apply datetime_le_iff in E. done. }
  assert (instant d <= instant cutoff_dt \/ ~ instant d <= instant cutoff_dt) as Hdec by lia.
  split; [|split; [|split; [|split]]].
  - intros s region snap H Hc. unfold get_ebs_snapshots, run_paginated. rewrite Hc.
    apply gets_record; [| |exact Hdec]; unfold ebs_item; rewrite H; [apply Hyes|apply Hno].
  - intros s region snap H Hc. unfold get_rds_instance_snapshots, run_paginated. rewrite Hc.
    apply gets_record; [| |exact Hdec]; unfold rds_instance_item; rewrite H;
      [apply Hyes|apply Hno].
  - intros s region snap H Hc. unfold get_rds_cluster_snapshots, run_paginated. rewrite Hc.
    apply gets_record; [| |exact Hdec]; unfold rds_cluster_item; rewrite H;
      [apply Hyes|apply Hno].
  - intros p snap H. apply gets_record; [|tauto|tauto].
    intros _. unfold ListEbsSnapshots.ebs_item. rewrite H.
    destruct (emit_ok (ebs_display_name snap) d Hr) as (u & _ & ->). eauto.
  - intros now n. unfold cutoff_of, timedelta_days, datetime_add.
    destruct (_ && _); [|done]. intros H.
    destruct (of_civil_us_ok _ (utcoffset now) (of_civil_us_inv _ _ _ H))
      as (c' & Hc' & Hciv & Hoff & _).
    assert (c' = cutoff_dt) as -> by congruence.
    unfold instant. rewrite Hciv, Hoff. lia.
Qed.

Lemma extract_enumerators_filter_at_cutoff_witness :
  well_formed sample_cutoff /\
  (exists r rs2 e,
     ebs_item sample_cutoff sample_at_cutoff = Yield r /\
     get_ebs_snapshots boundary_session "us-east-1" sample_cutoff
     = ([mk_record "backup-a" "2024-04-22T12:00:00Z"] ++ r :: rs2, e) /\
     run_pages (ebs_item sample_cutoff)
       ([Some [sample_recent]] ++ Some ([sample_old] ++ [sample_multiline]) :: []) None
     = ([mk_record "backup-a" "2024-04-22T12:00:00Z"] ++ rs2, e)) /\
  (exists r rs2 e,
     ListEbsSnapshots.ebs_item sample_at_cutoff = Yield r /\
     run_pages ListEbsSnapshots.ebs_item
       ([Some [sample_recent]]
        ++ Some ([sample_old] ++ sample_at_cutoff :: [sample_multiline]) :: []) None
     = ([mk_record "snap-123" "2024-05-22T12:00:00Z";
         mk_record "backup-a" "2024-04-22T12:00:00Z"] ++ r :: rs2, e) /\
     run_pages ListEbsSnapshots.ebs_item
       ([Some [sample_recent]] ++ Some ([sample_old] ++ [sample_multiline]) :: []) None
     = ([mk_record "snap-123" "2024-05-22T12:00:00Z";
         mk_record "backup-a" "2024-04-22T12:00:00Z"] ++ rs2, e)) /\
  get_ebs_snapshots boundary_session "us-east-1" sample_cutoff
  = ([mk_record "backup-a" "2024-04-22T12:00:00Z";
      mk_record "snap-030" "2024-05-02T12:00:00Z";
      mk_record ("a" +:+ NEWLINE +:+ "b") "2024-04-22T12:00:00Z"], None).
Proof.
  assert (well_formed sample_cutoff) as Hw.
  { unfold well_formed, valid_datetime, Calendar.valid_date, utc_representable.
    by_computation. }
  split; [exact Hw|].
  pose proof (extract_enumerators_filter_at_cutoff sample_cutoff sample_cutoff Hw)
    as (Hebs & _ & _ & Hlist & _).
  split; [|split; [|vm_compute; reflexivity]].
  - assert (run_items (ebs_item sample_cutoff)
              (concat (page_items <$> [Some [sample_recent]]) ++ [sample_old])
            = ([mk_record "backup-a" "2024-04-22T12:00:00Z"], None)) as Hpre
      by (vm_compute; reflexivity).
    apply (proj2 (proj2 (Hebs boundary_session "us-east-1"%string sample_at_cutoff
                           eq_refl eq_refl
                           [Some [sample_recent]] [sample_old] [sample_multiline] []
                           eq_refl)
                    [mk_record "backup-a" "2024-04-22T12:00:00Z"] Hpre)).
    lia.
  - assert (run_items ListEbsSnapshots.ebs_item
              (concat (page_items <$> [Some [sample_recent]]) ++ [sample_old])
            = ([mk_record "snap-123" "2024-05-22T12:00:00Z";
                mk_record "backup-a" "2024-04-22T12:00:00Z"], None)) as Hpre
      by (vm_compute; reflexivity).
    apply (proj2 (proj2 (Hlist (describe_snapshots boundary_session "us-east-1")
                           sample_at_cutoff eq_refl
                           [Some [sample_recent]] [sample_old] [sample_multiline] []
                           eq_refl)
                    [mk_record "snap-123" "2024-05-22T12:00:00Z";
                     mk_record "backup-a" "2024-04-22T12:00:00Z"] Hpre)).
    exact I.
Defined.

(** C2, as stated, fails: only [BotoCoreError] and [ClientError] are caught
    around an enumerator call.  Here the listing resolves to two regions;
    the first one yields a record, the call for the second ends with a
    [RuntimeError], and the run dies with that exception: nothing is
    written and the exit status is not zero. *)
Lemma other_failure_aborts_run :
  resolve_regions sample_all_regions (sample_session unexpected)
    = inr ["eu-west-1"%string; "us-east-1"%string] /\
  (exists r, fst (get_ebs_snapshots (sample_session unexpected) "eu-west-1" sample_cutoff)
             = [r]) /\
  snd (get_ebs_snapshots (sample_session unexpected) "us-east-1" sample_cutoff)
    = Some unexpected /\
  main (sample_world unexpected) sample_all_regions
    = mk_outcome [] None (Traceback unexpected) /\
  exit_status (main (sample_world unexpected) sample_all_regions) = 1.
Proof. vm_compute. repeat split. eexists. reflexivity. Qed.

(** C2 (amended).  When the session, the cutoff and the regions are
    established and the output file can be written, and every enumerator
    call of the run either completes or ends with a [BotoCoreError] or a
    [ClientError], the run returns with exit status 0; the file holds, in
    sorted order, every record of every call, including those a failing
    call had already yielded; and each failure is reported on the console
    by a warning naming its kind, its region and the exception. *)
Theorem remote_failures_are_isolated (w : world) (a : args) (s : session)
    (cutoff_dt : datetime) (regions : list string) :
  build_session w (profile a) = Ok s ->
  cutoff_of (now_utc w) (days a) = Ok cutoff_dt ->
  resolve_regions a s = inr regions ->
  open_for_write w (output a) = None ->
  Forall remote_failure_only (all_calls a s cutoff_dt regions) ->
  exit_status (main w a) = 0 /\
  written (main w a)
    = Some (output a,
            write_rows (sort_rows (concat (call_records <$> all_calls a s cutoff_dt regions)))) /\
  (forall c r, c ∈ all_calls a s cutoff_dt regions -> r ∈ call_records c ->
     r ∈ sort_rows (concat (call_records <$> all_calls a s cutoff_dt regions))) /\
  (forall c e, c ∈ all_calls a s cutoff_dt regions -> snd (call_result c) = Some e ->
     warning (call_what c) (call_region c) e ∈ stdout (main w a)).
Proof.
  intros Hs Hc Hr Ho Hf.
  set (calls := all_calls a s cutoff_dt regions) in *.
  set (rows := sort_rows (concat (call_records <$> calls))).
  assert (main w a = mk_outcome (concat (call_warnings <$> calls) ++ [wrote_line rows (output a)])
                       (Some (output a, write_rows rows)) Returns) as ->.
  { unfold main. rewrite Hs, Hc, Hr. subst calls.
    rewrite (aggregate_isolated _ _ _ _ _ _ Hf).
    unfold report. by rewrite Ho. }
  split; [done|]. split; [done|]. split.
  - intros c r Hin Hrin. subst rows. rewrite sort_rows_perm.
    apply list_elem_of_In, in_concat. exists (call_records c).
    split; apply list_elem_of_In; [|done]. by apply list_elem_of_fmap_2.
  - intros c e Hin He. cbn [stdout]. apply elem_of_app. left.
    apply list_elem_of_In, in_concat. exists (call_warnings c).
    split; apply list_elem_of_In; [by apply list_elem_of_fmap_2|].
    unfold call_warnings. rewrite He. constructor.
Qed.

Lemma remote_failures_are_isolated_witness :
  exit_status (main (sample_world throttled) sample_all_regions) = 0 /\
  stdout (main (sample_world throttled) sample_all_regions)
  = ["Warning: Failed to list EBS snapshots in us-east-1: Throttling"%string;
     "Wrote 4 records to snapshots.txt"%string].
Proof.
  split; [|vm_compute; reflexivity].
  apply (remote_failures_are_isolated (sample_world throttled) sample_all_regions
           (sample_session throttled) sample_cutoff
           ["eu-west-1"%string; "us-east-1"%string]).
  - reflexivity.
  - vm_compute. reflexivity.
  - vm_compute. reflexivity.
  - reflexivity.
  - vm_compute. repeat constructor; intros e [= <-]; reflexivity.
Defined.



(** C4.  The name of a block-storage record, in both scripts, is read off
    the tags, the description and the identifier of the item.  An item
    whose creation time is a datetime that converts to UTC gets a record
    in [list_ebs_snapshots.py], and the same record in
    [extract_snapshots.py] when it is at or before the cutoff.  The name
    of that record is the value of the first tag whose key is "Name",
    whatever tags of other keys stand before it and whatever tags follow,
    when that value is a non-empty string; when the tags give no such
    value, the description when non-empty; else the snapshot identifier
    when non-empty; else the placeholder.  A value that is absent or empty
    counts as not present.  The name is never empty. *)
Theorem ebs_name_precedence cutoff_dt snap :
  (forall d, StartTime snap = PyDatetime d -> utc_representable d ->
     exists r, ListEbsSnapshots.ebs_item snap = Yield r /\
       (instant d <= instant cutoff_dt -> ebs_item cutoff_dt snap = Yield r)) /\
  (forall r,
     ebs_item cutoff_dt snap = Yield r \/ ListEbsSnapshots.ebs_item snap = Yield r ->
     (forall pre t post v, tags_of snap = pre ++ t :: post -> Forall not_Name pre ->
        Key t = Some "Name"%string -> Value t = Some v -> v <> EmptyString ->
        name r = v) /\
     (no_name_value (tags_of snap) ->
      forall v, Description snap = Some v -> v <> EmptyString -> name r = v) /\
     (no_name_value (tags_of snap) -> truthy (Description snap) = false ->
      forall v, SnapshotId snap = Some v -> v <> EmptyString -> name r = v) /\
     (no_name_value (tags_of snap) -> truthy (Description snap) = false ->
      truthy (SnapshotId snap) = false -> name r = "<unnamed>"%string) /\
     name r <> EmptyString) /\
  ((exists pre t post v, tags_of snap = pre ++ t :: post /\ Forall not_Name pre /\
      Key t = Some "Name"%string /\ Value t = Some v /\ v <> EmptyString)
   \/ no_name_value (tags_of snap)).
Proof.
  split; [|split].
  - intros d Hd Hr. unfold ebs_item, ListEbsSnapshots.ebs_item. rewrite Hd.
    destruct (emit_ok (ebs_display_name snap) d Hr) as (u & _ & ->).
    eexists. split; [reflexivity|]. intros Hle%datetime_le_iff. by rewrite Hle.
  - intros r H. rewrite (ebs_items_name _ _ _ H).
    unfold ebs_display_name. fold (tags_of snap).
    split; [|split; [|split; [|split]]].
    + intros pre t post v Ht Hpre Hk Hv Hne. rewrite Ht.
      rewrite (name_tag_of_skip pre (t :: post) Hpre). simpl.
      rewrite decide_True by done. rewrite Hv.
      assert (truthy (Some v) = true) as Htr by (by apply truthy_Some).
      rewrite (py_or_truthy (Some v)) by done.
      rewrite (py_or_truthy (Some v)) by done.
      by rewrite (py_or_truthy (Some v)).
    + intros Hn%no_name_value_falsy v Hv Hne. rewrite Hv.
      assert (truthy (Some v) = true) as Htr by (by apply truthy_Some).
      rewrite (py_or_falsy (name_tag_of _)) by done.
      rewrite (py_or_truthy (Some v)) by done.
      by rewrite (py_or_truthy (Some v)).
    + intros Hn%no_name_value_falsy Hd v Hv Hne. rewrite Hv.
      assert (truthy (Some v) = true) as Htr by (by apply truthy_Some).
      rewrite (py_or_falsy (name_tag_of _)) by done.
      rewrite (py_or_falsy (Description snap)) by done.
      by rewrite (py_or_truthy (Some v)).
    + intros Hn%no_name_value_falsy Hd Hi.
      rewrite (py_or_falsy (name_tag_of _)) by done.
      rewrite (py_or_falsy (Description snap)) by done.
      by rewrite (py_or_falsy (SnapshotId snap)).
    + apply py_str_truthy. apply (ebs_display_name_truthy snap).
  - destruct (proj1 (name_tag_of_spec (tags_of snap) _) eq_refl)
      as [[Hf _]|(pre & t & post & Ht & Hf & Hk & Hv)].
    + right. by left.
    + destruct (Value t) as [v|] eqn:Ev.
      * destruct (decide (v = EmptyString)) as [->|Hne].
        { right. right. exists pre, t, post. rewrite Ev. done. }
        left. exists pre, t, post, v. done.
      * right. right. exists pre, t, post. rewrite Ev. done.
Qed.

Lemma ebs_name_precedence_witness :
  ebs_item sample_cutoff sample_tagged = Yield (mk_record "backup-a" "2024-04-22T12:00:00Z") /\
  name (mk_record "backup-a" "2024-04-22T12:00:00Z") = "backup-a"%string.
Proof.
  assert (ebs_item sample_cutoff sample_tagged
          = Yield (mk_record "backup-a" "2024-04-22T12:00:00Z")) as H
    by (vm_compute; reflexivity).
  split; [exact H|].
  apply (proj1 (proj1 (proj2 (ebs_name_precedence sample_cutoff sample_tagged))
                  _ (or_introl H))
           [mk_tag (Some "Owner"%string) (Some "ops"%string)]
           (mk_tag (Some "Name"%string) (Some "backup-a"%string))
           [mk_tag (Some "Name"%string) (Some "second"%string)] "backup-a"%string).
  - reflexivity.
  - repeat constructor. discriminate.
  - reflexivity.
  - reflexivity.
  - discriminate.
Defined.

(** C5.  An item whose creation-time field is absent or is not a datetime
    is skipped by every enumerator without any exception: the run over an
    input containing it equals the run over the input without it, so the
    other items of its page and of the other pages are processed as
    before, and against the same input with a well-formed item in its
    place that yields a record, the output lacks exactly that record. *)
Theorem malformed_item_skipped cutoff_dt :
  (forall snap, not_datetime (StartTime snap) ->
     skips_silently (ebs_item cutoff_dt) snap) /\
  (forall snap, not_datetime (db_SnapshotCreateTime snap) ->
     skips_silently (rds_instance_item cutoff_dt) snap) /\
  (forall snap, not_datetime (dbc_SnapshotCreateTime snap) ->
     skips_silently (rds_cluster_item cutoff_dt) snap) /\
  (forall snap, not_datetime (StartTime snap) ->
     skips_silently ListEbsSnapshots.ebs_item snap).
Proof.
  split; [|split; [|split]]; intros snap Hn; apply skip_is_silent.
  - unfold ebs_item. by destruct (StartTime snap).
  - unfold rds_instance_item. by destruct (db_SnapshotCreateTime snap).
  - unfold rds_cluster_item. by destruct (dbc_SnapshotCreateTime snap).
  - unfold ListEbsSnapshots.ebs_item. by destruct (StartTime snap).
Qed.

Lemma malformed_item_skipped_witness :
  not_datetime (StartTime sample_untimed) /\
  skips_silently (ebs_item sample_cutoff) sample_untimed.
Proof.
  split; [exact I|].
  apply (proj1 (malformed_item_skipped sample_cutoff) sample_untimed). exact I.
Defined.

(** C6, as stated, fails when both an explicit region and "all regions"
    are given: [main] tests [--all-regions] first, so the listing decides
    and the explicit region is not used. *)
Lemma all_regions_overrides_region :
  region sample_both_flags = Some "us-east-1"%string /\
  all_regions sample_both_flags = true /\
  resolve_regions sample_both_flags sample_regions_session = inr ["eu-west-1"%string] /\
  resolve_regions sample_both_flags sample_regions_session <> inr ["us-east-1"%string].
Proof. vm_compute. repeat split. discriminate. Qed.

(** C6 (amended).  When "all regions" is requested, the resolver returns
    the region names of the listing that are non-empty and whose opt-in
    status is unset, "opt-in-not-required" or "opted-in", without
    duplicates and in ascending order, whether or not an explicit region
    is given; a failure of the listing ends the run with a non-zero exit
    status and nothing written.  Otherwise it returns exactly the explicit
    region when one is given and non-empty, else the session's default
    region; and when there is no default region either, the run ends with
    the configuration error message, a non-zero exit status and nothing
    written. *)
Theorem region_resolution (a : args) (s : session) :
  (all_regions a = false -> forall r, region a = Some r -> r <> EmptyString ->
     resolve_regions a s = inr [r]) /\
  (all_regions a = true -> ec2_client s None = None ->
   forall resp, describe_regions s = Ok resp ->
     exists l, resolve_regions a s = inr l /\
       StronglySorted String.le l /\ NoDup l /\
       forall x, x ∈ l <->
         exists e, e ∈ (match resp with Some es => es | None => [] end) /\
                   RegionName e = Some x /\ x <> EmptyString /\
                   accepted_status (OptInStatus e)) /\
  (all_regions a = true ->
   (is_Some (ec2_client s None) \/ exists e, describe_regions s = Raise e) ->
     exists x, resolve_regions a s = inl x /\
       forall w, build_session w (profile a) = Ok s ->
         exit_status (main w a) = 1 /\ written (main w a) = None) /\
  (all_regions a = false -> truthy (region a) = false ->
     (forall r, region_name s = Some r -> r <> EmptyString ->
        resolve_regions a s = inr [r]) /\
     (truthy (region_name s) = false ->
        resolve_regions a s = inl (SystemExit NO_REGION) /\
        forall w, build_session w (profile a) = Ok s ->
          exit_status (main w a) = 1 /\ written (main w a) = None)).
Proof.
  split; [|split; [|split]].
  - intros Ha r Hr Hne. unfold resolve_regions. rewrite Ha, Hr.
    assert (truthy (Some r) = true) as Ht by (by apply truthy_Some).
    by rewrite py_or_truthy, Ht.
  - intros Ha Hc resp Hd. unfold resolve_regions, list_opted_in_regions.
    rewrite Ha, Hc, Hd. eexists. split; [reflexivity|].
    destruct (sorted_set_spec
      (omap (fun r => if region_kept r then RegionName r else None)
         match resp with Some l => l | None => [] end)) as (H1 & H2 & H3).
    split; [done|]. split; [done|]. intros x. rewrite H3, list_elem_of_omap.
    split.
    + intros (e & He & Hk). exists e. split; [done|].
      destruct (region_kept e) eqn:E; [|done].
      apply region_kept_spec in E as [Ht Hst]. rewrite Hk in Ht.
      by apply truthy_Some in Ht.
    + intros (e & He & Hn & Hne & Hst). exists e. split; [done|].
      assert (region_kept e = true) as ->; [|done].
      apply region_kept_spec. split; [|done]. rewrite Hn. by apply truthy_Some.
  - intros Ha Hfail.
    assert (exists x, resolve_regions a s = inl x) as [x Hx].
    { unfold resolve_regions, list_opted_in_regions. rewrite Ha.
      destruct Hfail as [[e He]|[e He]].
      - rewrite He. destruct (is_Exception e); eauto.
      - rewrite He. destruct (ec2_client s None) as [e'|].
        + destruct (is_Exception e'); eauto.
        + destruct (is_boto_error e); [simpl; eauto|]. destruct (is_Exception e); eauto. }
    exists x. split; [done|]. intros w Hw.
    by destruct (resolve_regions_fatal a s x w Hx Hw) as (_ & ? & ?).
  - intros Ha Hr. split.
    + intros r Hn Hne. unfold resolve_regions. rewrite Ha, Hn.
      assert (truthy (Some r) = true) as Ht by (by apply truthy_Some).
      by rewrite py_or_falsy, Ht.
    + intros Hn.
      assert (resolve_regions a s = inl (SystemExit NO_REGION)) as Hx.
      { unfold resolve_regions. rewrite Ha, py_or_falsy by done. by rewrite Hn. }
      split; [done|]. intros w Hw.
      by destruct (resolve_regions_fatal a s _ w Hx Hw) as (_ & ? & ?).
Qed.

Lemma region_resolution_witness :
  all_regions sample_one_region = false /\
  resolve_regions sample_one_region (sample_session throttled) = inr ["us-east-1"%string].
Proof.
  split; [reflexivity|].
  apply (proj1 (region_resolution sample_one_region (sample_session throttled)));
    [reflexivity|reflexivity|discriminate].
Defined.

(** C7.  A managed-database snapshot, instance or cluster, whose creation
    time is a datetime that converts to UTC and is at or before the cutoff
    gets a record, and the name of that record is the snapshot identifier
    when it is a non-empty string and the placeholder otherwise.  So is
    the name of every record the two enumerators yield; and what they do
    with an item depends on its identifier and its creation time only,
    whatever its tags and other members. *)
Theorem rds_name_identifier_only cutoff_dt :
  (forall snap d, db_SnapshotCreateTime snap = PyDatetime d -> utc_representable d ->
     instant d <= instant cutoff_dt ->
     exists r, rds_instance_item cutoff_dt snap = Yield r /\
       (forall v, DBSnapshotIdentifier snap = Some v -> v <> EmptyString -> name r = v) /\
       (truthy (DBSnapshotIdentifier snap) = false -> name r = "<unnamed>"%string)) /\
  (forall snap d, dbc_SnapshotCreateTime snap = PyDatetime d -> utc_representable d ->
     instant d <= instant cutoff_dt ->
     exists r, rds_cluster_item cutoff_dt snap = Yield r /\
       (forall v, DBClusterSnapshotIdentifier snap = Some v -> v <> EmptyString ->
          name r = v) /\
       (truthy (DBClusterSnapshotIdentifier snap) = false -> name r = "<unnamed>"%string)) /\
  (forall snap r, rds_instance_item cutoff_dt snap = Yield r ->
     (forall v, DBSnapshotIdentifier snap = Some v -> v <> EmptyString -> name r = v) /\
     (truthy (DBSnapshotIdentifier snap) = false -> name r = "<unnamed>"%string)) /\
  (forall snap r, rds_cluster_item cutoff_dt snap = Yield r ->
     (forall v, DBClusterSnapshotIdentifier snap = Some v -> v <> EmptyString ->
        name r = v) /\
     (truthy (DBClusterSnapshotIdentifier snap) = false -> name r = "<unnamed>"%string)) /\
  (forall snap snap',
     DBSnapshotIdentifier snap = DBSnapshotIdentifier snap' ->
     db_SnapshotCreateTime snap = db_SnapshotCreateTime snap' ->
     rds_instance_item cutoff_dt snap = rds_instance_item cutoff_dt snap') /\
  (forall snap snap',
     DBClusterSnapshotIdentifier snap = DBClusterSnapshotIdentifier snap' ->
     dbc_SnapshotCreateTime snap = dbc_SnapshotCreateTime snap' ->
     rds_cluster_item cutoff_dt snap = rds_cluster_item cutoff_dt snap').
Proof.
  assert (forall snap r, rds_instance_item cutoff_dt snap = Yield r ->
     (forall v, DBSnapshotIdentifier snap = Some v -> v <> EmptyString -> name r = v) /\
     (truthy (DBSnapshotIdentifier snap) = false -> name r = "<unnamed>"%string)) as Hi.
  { intros snap r. unfold rds_instance_item.
    destruct (db_SnapshotCreateTime snap) as [| | |t]; try done.
    destruct (datetime_le t cutoff_dt); [|done].
    intros (u & _ & ->)%emit_inv. cbn [name]. split.
    + intros v -> Hne. by rewrite py_or_truthy by (by apply truthy_Some).
    + intros Hf. by rewrite py_or_falsy. }
  assert (forall snap r, rds_cluster_item cutoff_dt snap = Yield r ->
     (forall v, DBClusterSnapshotIdentifier snap = Some v -> v <> EmptyString ->
        name r = v) /\
     (truthy (DBClusterSnapshotIdentifier snap) = false -> name r = "<unnamed>"%string)) as Hc.
  { intros snap r. unfold rds_cluster_item.
    destruct (dbc_SnapshotCreateTime snap) as [| | |t]; try done.
    destruct (datetime_le t cutoff_dt); [|done].
    intros (u & _ & ->)%emit_inv. cbn [name]. split.
    + intros v -> Hne. by rewrite py_or_truthy by (by apply truthy_Some).
    + intros Hf. by rewrite py_or_falsy. }
  split; [|split; [|split; [exact Hi|split; [exact Hc|split]]]].
  - intros snap d Hd Hr Hle%datetime_le_iff.
    assert (exists r, rds_instance_item cutoff_dt snap = Yield r) as [r Hy].
    { unfold rds_instance_item. rewrite Hd, Hle.
      destruct (emit_ok (py_or (DBSnapshotIdentifier snap) (Some UNNAMED)) d Hr)
        as (u & _ & ->). eauto. }
    exists r. split; [exact Hy|]. by apply Hi.
  - intros snap d Hd Hr Hle%datetime_le_iff.
    assert (exists r, rds_cluster_item cutoff_dt snap = Yield r) as [r Hy].
    { unfold rds_cluster_item. rewrite Hd, Hle.
      destruct (emit_ok (py_or (DBClusterSnapshotIdentifier snap) (Some UNNAMED)) d Hr)
        as (u & _ & ->). eauto. }
    exists r. split; [exact Hy|]. by apply Hc.
  - intros snap snap' Hs Ht. unfold rds_instance_item. by rewrite Hs, Ht.
  - intros snap snap' Hs Ht. unfold rds_cluster_item. by rewrite Hs, Ht.
Qed.

Lemma rds_name_identifier_only_witness :
  (exists r, rds_instance_item sample_cutoff sample_db = Yield r /\
             name r = "db-snap-1"%string) /\
  (exists r, rds_cluster_item sample_cutoff sample_cluster = Yield r /\
             name r = "cluster-snap-1"%string) /\
  (exists r, rds_cluster_item sample_cutoff sample_cluster_unnamed = Yield r /\
             name r = "<unnamed>"%string).
Proof.
  assert (utc_representable (mk_datetime 2024 4 27 12 0 0 0 0)) as Hr
    by (unfold utc_representable; by_computation).
  assert (instant (mk_datetime 2024 4 27 12 0 0 0 0) <= instant sample_cutoff) as Hle
    by by_computation.
  pose proof (rds_name_identifier_only sample_cutoff) as (Hi & Hc & _).
  split; [|split].
  - destruct (Hi sample_db _ eq_refl Hr Hle) as (r & Hy & Hn & _).
    exists r. split; [exact Hy|]. apply Hn; [reflexivity|discriminate].
  - destruct (Hc sample_cluster _ eq_refl Hr Hle) as (r & Hy & Hn & _).
    exists r. split; [exact Hy|]. apply Hn; [reflexivity|discriminate].
  - destruct (Hc sample_cluster_unnamed _ eq_refl Hr Hle) as (r & Hy & _ & Hn).
    exists r. split; [exact Hy|]. apply Hn. reflexivity.
Defined.






(** C10.  Names are written as they are.  For records the enumerators can
    emit whose names hold neither TAB nor newline, the text written has
    exactly one line per record, each line is the name, a TAB and the
    created text, and splitting a line at its last TAB gives back the name
    and the created text.  A "Name" tag holding a newline is carried into
    the record by both scripts, and that record takes two lines. *)
Theorem serialization_is_verbatim :
  (forall rows,
     Forall (fun r => emitted r /\ contains TAB_CHAR (name r) = false
                      /\ contains NEWLINE_CHAR (name r) = false) rows ->
     lines_of (write_rows rows) = (fun r => name r +:+ TAB +:+ created r) <$> rows /\
     length (lines_of (write_rows rows)) = length rows /\
     rsplit_tab <$> lines_of (write_rows rows)
       = (fun r => Some (name r, created r)) <$> rows) /\
  (exists r, ListEbsSnapshots.ebs_item sample_multiline = Yield r /\
     ebs_item sample_cutoff sample_multiline = Yield r /\
     name r = "a" +:+ NEWLINE +:+ "b" /\
     contains NEWLINE_CHAR (name r) = true /\
     length (lines_of (write_rows [r])) = 2%nat).
Proof.
  split.
  - intros rows Hf.
    assert (lines_of (write_rows rows) = format_row <$> rows) as Hl.
    { induction Hf as [|r rows (Hem & Ht & Hn) Hf IH]; [done|].
      cbn [write_rows fmap list_fmap]. rewrite lines_of_line, IH; [done|].
      unfold format_row. rewrite !contains_app, Hn.
      destruct (emitted_created r Hem) as [_ ->]. done. }
    split; [exact Hl|]. split; [by rewrite Hl, length_fmap|].
    rewrite Hl. clear Hl. induction Hf as [|r rows (Hem & Ht & Hn) Hf IH]; [done|].
    cbn [fmap list_fmap]. f_equal; [|exact IH].
    unfold format_row. apply rsplit_tab_row. by destruct (emitted_created r Hem).
  - eexists. split; [vm_compute; reflexivity|]. vm_compute. done.
Qed.

Lemma serialization_is_verbatim_witness :
  emitted (mk_record "backup-a" "2024-04-22T12:00:00Z") /\
  lines_of (write_rows [mk_record "backup-a" "2024-04-22T12:00:00Z"])
  = (fun r => name r +:+ TAB +:+ created r)
      <$> [mk_record "backup-a" "2024-04-22T12:00:00Z"].
Proof.
  assert (emitted (mk_record "backup-a" "2024-04-22T12:00:00Z")) as He.
  { exists (Some "backup-a"%string), (mk_datetime 2024 4 22 12 0 0 0 0).
    vm_compute. reflexivity. }
  split; [exact He|].
  apply (proj1 serialization_is_verbatim [mk_record "backup-a" "2024-04-22T12:00:00Z"]).
  constructor; [|constructor].
  split; [exact He|]. split; vm_compute; reflexivity.
Defined.
End Claims.

(** * Further properties *)

(** ** Calendar round trip *)

Section MoreCalendarFacts.
Import Calendar.

Lemma date_trichotomy y m d y' m' d' :
  (y, m, d) = (y', m', d') \/ date_lt (y, m, d) (y', m', d') \/ date_lt (y', m', d') (y, m, d).
Proof.
  unfold date_lt.
  destruct (Z.lt_trichotomy y y') as [?|[->|?]]; [tauto| |tauto].
  destruct (Z.lt_trichotomy m m') as [?|[->|?]]; [tauto| |tauto].
  destruct (Z.lt_trichotomy d d') as [?|[->|?]]; tauto.
Qed.

Lemma ymd2ord_positive y m d : 1 <= y -> 1 <= m <= 12 -> 1 <= d -> 1 <= ymd2ord y m d.
Proof.
  intros Hy Hm Hd. unfold ymd2ord.
  pose proof (days_before_year_mono 1 y Hy) as H.
  change (days_before_year 1) with 0 in H.
  pose proof (days_before_month_nonneg y m). lia.
Qed.

Lemma ord2ymd_ymd2ord y m d :
  1 <= y -> 1 <= m <= 12 -> 1 <= d <= days_in_month y m ->
  ord2ymd (ymd2ord y m d) = (y, m, d).
Proof.
  intros Hy Hm Hd.
  pose proof (ymd2ord_positive y m d Hy Hm ltac:(lia)) as Hpos.
  pose proof (ord2ymd_spec (ymd2ord y m d) Hpos) as Hs.
  destruct (ord2ymd (ymd2ord y m d)) as [[y' m'] d'].
  destruct Hs as (Ho & Hy' & Hm' & Hd').
  destruct (date_trichotomy y' m' d' y m d) as [E|[L|L]]; [done|exfalso..].
  - pose proof (ymd2ord_lt _ _ _ _ _ _ Hm' Hd' Hm Hd L). lia.
  - pose proof (ymd2ord_lt _ _ _ _ _ _ Hm Hd Hm' Hd' L). lia.
Qed.

Lemma ymd2ord_le_max y m d :
  y <= MAXYEAR -> 1 <= m <= 12 -> 1 <= d <= days_in_month y m ->
  ymd2ord y m d <= MAXORDINAL.
Proof.
  intros Hy Hm Hd. unfold ymd2ord, MAXORDINAL, MAXYEAR in *.
  pose proof (days_before_month_bound y m Hm).
  pose proof (days_before_year_succ y).
  pose proof (days_before_year_mono (y + 1) 10000 ltac:(lia)) as Hmono.
  change (days_before_year 10000) with 3652059 in Hmono.
  unfold leap_extra in *. destruct (is_leap y); lia.
Qed.

Lemma of_civil_us_civil_us d : valid_datetime d ->
  of_civil_us (civil_us d) (utcoffset d) = Ok d.
Proof.
  intros ((Hy & Hm & Hd) & Hh & Hmi & Hs & Hus & _).
  unfold MINYEAR in Hy.
  unfold MAXYEAR in Hy.
  assert (1 <= year d) as Hy1 by lia. assert (1 <= day d) as Hd1 by lia.
  assert (year d <= MAXYEAR) as Hy2 by (unfold MAXYEAR; lia).
  pose proof (ymd2ord_positive _ _ _ Hy1 Hm Hd1) as Hpos.
  pose proof (ymd2ord_le_max _ _ _ Hy2 Hm Hd) as Hmax.
  pose proof (ord2ymd_ymd2ord _ _ _ Hy1 Hm Hd) as Hrt.
  unfold of_civil_us, civil_us.
  set (o := ymd2ord (year d) (month d) (day d)) in *. clearbody o.
  set (t := (o * 86400 + hour d * 3600 + minute d * 60 + second d) * US_PER_SECOND
            + microsecond d).
  assert (t / US_PER_DAY = o) as ->.
  { subst t. unfold US_PER_DAY, US_PER_SECOND in *. Z.div_mod_to_equations. lia. }
  assert (t mod US_PER_DAY
          = (hour d * 3600 + minute d * 60 + second d) * US_PER_SECOND + microsecond d) as ->.
  { subst t. unfold US_PER_DAY, US_PER_SECOND in *. Z.div_mod_to_equations. lia. }
  assert (((hour d * 3600 + minute d * 60 + second d) * US_PER_SECOND + microsecond d)
            / US_PER_SECOND = hour d * 3600 + minute d * 60 + second d) as ->.
  { unfold US_PER_SECOND in *. Z.div_mod_to_equations. lia. }
  assert (((hour d * 3600 + minute d * 60 + second d) * US_PER_SECOND + microsecond d)
            mod US_PER_SECOND = microsecond d) as ->.
  { unfold US_PER_SECOND in *. Z.div_mod_to_equations. lia. }
  assert ((hour d * 3600 + minute d * 60 + second d) / 3600 = hour d) as ->
    by (Z.div_mod_to_equations; lia).
  assert ((hour d * 3600 + minute d * 60 + second d) mod 3600 / 60 = minute d) as ->
    by (Z.div_mod_to_equations; lia).
  assert ((hour d * 3600 + minute d * 60 + second d) mod 60 = second d) as ->
    by (Z.div_mod_to_equations; lia).
  destruct (Z.ltb_spec 0 o); [|lia]. destruct (Z.leb_spec o MAXORDINAL); [|lia].
  simpl. rewrite Hrt. by destruct d.
Qed.
End MoreCalendarFacts.

(** ** Cutoff and timestamps *)

Section TimeExtras.
Import ExtractSnapshots.

(** The cutoff is the instant [days] days before now, in the zone of now;
    with zero days it is now itself. *)
Theorem cutoff_is_days_before_now (now : datetime) (n : Z) :
  (forall c, cutoff_of now n = Ok c ->
     instant c = instant now - n * US_PER_DAY /\ utcoffset c = utcoffset now) /\
  (valid_datetime now -> cutoff_of now 0 = Ok now).
Proof.
  split.
  - intros c. unfold cutoff_of, timedelta_days, datetime_add.
    destruct (_ && _); [|done]. intros H.
    pose proof (of_civil_us_inv _ _ _ H) as Hr.
    destruct (of_civil_us_ok _ (utcoffset now) Hr) as (c' & Hc' & Hciv & Hoff & _).
    assert (c' = c) as -> by congruence.
    unfold instant. rewrite Hciv, Hoff. split; [lia|done].
  - intros Hv. unfold cutoff_of, timedelta_days, datetime_add. simpl.
    rewrite Z.add_0_r. by apply of_civil_us_civil_us.
Qed.

Lemma cutoff_is_days_before_now_witness :
  valid_datetime sample_now /\ cutoff_of sample_now 0 = Ok sample_now.
Proof.
  assert (valid_datetime sample_now) as Hv.
  { unfold valid_datetime, Calendar.valid_date. by_computation. }
  split; [exact Hv|].
  exact (proj2 (cutoff_is_days_before_now sample_now 0) Hv).
Defined.

(** A number of days that [timedelta] refuses, or a cutoff outside the
    years 1 to 9999, ends the run with the [OverflowError] before any
    region is resolved or any remote call made. *)
Theorem days_out_of_range_aborts (w : world) (a : args) (s : session) :
  build_session w (profile a) = Ok s ->
  (MAX_DELTA_DAYS < days a \/ days a < - MAX_DELTA_DAYS \/
   ~ (0 < (civil_us (now_utc w) + - (days a * US_PER_DAY)) / US_PER_DAY
        <= Calendar.MAXORDINAL)) ->
  exists msg, main w a = mk_outcome [] None (Traceback (Exn OverflowError msg)) /\
              exit_status (main w a) = 1.
Proof.
  intros Hs Hbad. unfold main. rewrite Hs. unfold cutoff_of, timedelta_days.
  destruct (Z.leb_spec (- MAX_DELTA_DAYS) (days a));
    destruct (Z.leb_spec (days a) MAX_DELTA_DAYS); simpl; try (by eexists).
  unfold datetime_add. rewrite of_civil_us_overflow; [by eexists|].
  destruct Hbad as [?|[?|?]]; [lia|lia|done].
Qed.

Lemma days_out_of_range_aborts_witness :
  exists msg,
    main (sample_world throttled) huge_days_args
    = mk_outcome [] None (Traceback (Exn OverflowError msg)) /\
    exit_status (main (sample_world throttled) huge_days_args) = 1.
Proof.
  apply (days_out_of_range_aborts (sample_world throttled) huge_days_args
           (sample_session throttled)).
  - reflexivity.
  - left. vm_compute. reflexivity.
Defined.



(** A creation time that is already in UTC is written with its own
    fields. *)
Theorem utc_time_written_as_is (display_name : option string) (d : datetime) :
  valid_datetime d -> utcoffset d = 0 ->
  emit display_name d = Yield (mk_record (py_str display_name) (strftime_iso d)).
Proof.
  intros Hv Hz. unfold emit, astimezone_utc, instant. rewrite Hz, Z.sub_0_r.
  rewrite <- Hz at 1. by rewrite (of_civil_us_civil_us d Hv).
Qed.

Lemma utc_time_written_as_is_witness :
  valid_datetime sample_now /\
  emit None sample_now = Yield (mk_record "None" (strftime_iso sample_now)).
Proof.
  assert (valid_datetime sample_now) as Hv.
  { unfold valid_datetime, Calendar.valid_date. by_computation. }
  split; [exact Hv|].
  apply (utc_time_written_as_is None sample_now Hv). reflexivity.
Defined.

(** Two emitted records carry the same created text exactly when their
    creation instants fall in the same UTC second, whatever the zones the
    provider expressed them in. *)
Theorem created_equal_iff_same_second n1 n2 a b r1 r2 :
  emit n1 a = Yield r1 -> emit n2 b = Yield r2 ->
  (created r1 = created r2 <-> instant_s a = instant_s b).
Proof.
  intros (ua & _ & -> & Hva & _ & Hsa)%emit_utc (ub & _ & -> & Hvb & _ & Hsb)%emit_utc.
  cbn [created]. rewrite (strftime_iso_inj ua ub Hva Hvb), <- Hsa, <- Hsb. split.
  - intros (Hy & Hm & Hd & Hh & Hmi & Hs). unfold civil_s.
    by rewrite Hy, Hm, Hd, Hh, Hmi, Hs.
  - by apply same_second_fields.
Qed.

Lemma created_equal_iff_same_second_witness :
  emit None (mk_datetime 2024 4 22 14 0 0 7 7200000000)
    = Yield (mk_record "None" "2024-04-22T12:00:00Z") /\
  emit None (mk_datetime 2024 4 22 12 0 0 900000 0)
    = Yield (mk_record "None" "2024-04-22T12:00:00Z") /\
  instant_s (mk_datetime 2024 4 22 14 0 0 7 7200000000)
  = instant_s (mk_datetime 2024 4 22 12 0 0 900000 0).
Proof.
  assert (emit None (mk_datetime 2024 4 22 14 0 0 7 7200000000)
          = Yield (mk_record "None" "2024-04-22T12:00:00Z")) as H1
    by (vm_compute; reflexivity).
  assert (emit None (mk_datetime 2024 4 22 12 0 0 900000 0)
          = Yield (mk_record "None" "2024-04-22T12:00:00Z")) as H2
    by (vm_compute; reflexivity).
  split; [exact H1|]. split; [exact H2|].
  apply (proj1 (created_equal_iff_same_second _ _ _ _ _ _ H1 H2)). reflexivity.
Defined.
End TimeExtras.

(** ** Pagination *)

Section LoopExtras.
Context {A : Type} (body : A -> step).

Lemma run_items_never_fails (items : list A) :
  never_fails body items ->
  run_items body items = (omap (yield_of body) items, None).
Proof.
  induction 1 as [|x items Hx _ IH]; [done|].
  cbn [run_items omap list_omap]. unfold yield_of at 1.
  destruct (body x) as [|r|e]; [done| |by destruct (Hx e)].
  by rewrite IH.
Qed.

Lemma run_items_first_failure (pre post : list A) x e :
  never_fails body pre -> body x = Fail e ->
  run_items body (pre ++ x :: post) = (omap (yield_of body) pre, Some e).
Proof.
  intros Hpre Hx. rewrite run_items_app, (run_items_never_fails pre Hpre).
  simpl. rewrite Hx. by rewrite app_nil_r.
Qed.

Lemma run_pages_never_fails (ps : list (page A)) last :
  never_fails body (all_items ps) ->
  run_pages body ps last = (omap (yield_of body) (all_items ps), last).
Proof.
  intros Hn. rewrite run_pages_flat. fold (all_items ps).
  by rewrite (run_items_never_fails _ Hn).
Qed.





End LoopExtras.

Section PaginationExtras.
Import ExtractSnapshots.

(** When no item makes the loop body raise, an enumerator goes through
    every page delivered, in order, and produces the records of exactly
    the items that pass, in the order of the items; a page without its
    key adds nothing; and the exception that ended the paginated call, if
    any, is raised after the records of the pages delivered before it. *)
Theorem enumerators_paginate_fully (s : session) (region : string) (cutoff_dt : datetime) :
  (ec2_client s (Some region) = None ->
   never_fails (ebs_item cutoff_dt) (all_items (pages (describe_snapshots s region))) ->
   get_ebs_snapshots s region cutoff_dt
   = (omap (yield_of (ebs_item cutoff_dt)) (all_items (pages (describe_snapshots s region))),
      failure (describe_snapshots s region))) /\
  (rds_client s (Some region) = None ->
   never_fails (rds_instance_item cutoff_dt)
     (all_items (pages (describe_db_snapshots s region))) ->
   get_rds_instance_snapshots s region cutoff_dt
   = (omap (yield_of (rds_instance_item cutoff_dt))
        (all_items (pages (describe_db_snapshots s region))),
      failure (describe_db_snapshots s region))) /\
  (rds_client s (Some region) = None ->
   never_fails (rds_cluster_item cutoff_dt)
     (all_items (pages (describe_db_cluster_snapshots s region))) ->
   get_rds_cluster_snapshots s region cutoff_dt
   = (omap (yield_of (rds_cluster_item cutoff_dt))
        (all_items (pages (describe_db_cluster_snapshots s region))),
      failure (describe_db_cluster_snapshots s region))).
Proof.
  split; [|split]; intros Hc Hn.
  - unfold get_ebs_snapshots, run_paginated. rewrite Hc. by apply run_pages_never_fails.
  - unfold get_rds_instance_snapshots, run_paginated. rewrite Hc.
    by apply run_pages_never_fails.
  - unfold get_rds_cluster_snapshots, run_paginated. rewrite Hc.
    by apply run_pages_never_fails.
Qed.

Lemma enumerators_paginate_fully_witness :
  get_ebs_snapshots (sample_session throttled) "us-east-1" sample_cutoff
  = (omap (yield_of (ebs_item sample_cutoff)) [sample_multiline], Some throttled).
Proof.
  apply (proj1 (enumerators_paginate_fully (sample_session throttled) "us-east-1"
                  sample_cutoff)).
  - reflexivity.
  - unfold never_fails.
    replace (all_items (pages (describe_snapshots (sample_session throttled) "us-east-1")))
      with [sample_multiline] by (vm_compute; reflexivity).
    repeat constructor. intros e. vm_compute. discriminate.
Defined.



(** The first item on which the loop body raises ends the enumeration, on
    whichever page it stands: the records of the items before it, those of
    the earlier pages included, are kept, the items and pages after it are
    never examined, and the exception is the outcome. *)
Theorem item_exception_stops_enumeration {A : Type} (body : A -> step)
    (ps1 ps2 : list (page A)) (pre post : list A) (x : A) (e : exn)
    (last : option exn) :
  never_fails body (all_items ps1 ++ pre) -> body x = Fail e ->
  run_pages body (ps1 ++ Some (pre ++ x :: post) :: ps2) last
  = (omap (yield_of body) (all_items ps1 ++ pre), Some e).
Proof.
  intros Hpre Hx. rewrite run_pages_flat.
  replace (concat (page_items <$> (ps1 ++ Some (pre ++ x :: post) :: ps2)))
    with ((all_items ps1 ++ pre) ++ x :: (post ++ all_items ps2)).
  - by rewrite (run_items_first_failure body _ _ x e Hpre Hx).
  - unfold all_items. rewrite fmap_app, concat_app. simpl. by rewrite <- !app_assoc.
Qed.

Lemma item_exception_stops_enumeration_witness :
  run_pages (ebs_item sample_cutoff)
    ([Some [sample_old]; None]
     ++ Some ([sample_at_cutoff] ++ sample_out_of_range :: [sample_multiline])
     :: [Some [sample_tagged]]) None
  = ([mk_record "backup-a" "2024-04-22T12:00:00Z";
      mk_record "snap-030" "2024-05-02T12:00:00Z"],
     Some (Exn OverflowError "date value out of range")).
Proof.
  refine (eq_trans
            (item_exception_stops_enumeration (ebs_item sample_cutoff)
               [Some [sample_old]; None] [Some [sample_tagged]]
               [sample_at_cutoff] [sample_multiline] sample_out_of_range
               (Exn OverflowError "date value out of range") None _ _) _).
  - unfold never_fails.
    replace (all_items [Some [sample_old]; None] ++ [sample_at_cutoff])
      with [sample_old; sample_at_cutoff] by reflexivity.
    repeat constructor; intros e; vm_compute; discriminate.
  - vm_compute. reflexivity.
  - vm_compute. reflexivity.
Defined.


End PaginationExtras.

(** ** The aggregator *)

Section AggregatorExtras.
Import ExtractSnapshots.

Lemma visit_region_calls a s cutoff_dt region st :
  visit_region a s cutoff_dt region st = run_calls (calls_for a s cutoff_dt region) st.
Proof.
  unfold visit_region, calls_for.
  destruct (include_ebs a), (include_rds a); cbn [app run_calls call_what call_region call_result].
  - destruct (extend _ _ _ st) as [st1 [e|]]; [done|].
    destruct (extend _ _ _ st1) as [st2 [e|]]; [done|].
    by destruct (extend _ _ _ st2) as [st3 [e|]].
  - by destruct (extend _ _ _ st) as [st1 [e|]].
  - destruct (extend _ _ _ st) as [st2 [e|]]; [done|].
    by destruct (extend _ _ _ st2) as [st3 [e|]].
  - done.
Qed.

Lemma run_calls_app l1 l2 st :
  run_calls (l1 ++ l2) st =
  match run_calls l1 st with
  | (st', Some e) => (st', Some e)
  | (st', None) => run_calls l2 st'
  end.
Proof.
  revert st. induction l1 as [|c l1 IH]; intros st; [done|]. simpl.
  destruct (extend _ _ _ st) as [st' [e|]]; [done|]. apply IH.
Qed.

Lemma aggregate_calls a s cutoff_dt regions st :
  aggregate a s cutoff_dt regions st = run_calls (all_calls a s cutoff_dt regions) st.
Proof.
  revert st. unfold all_calls. induction regions as [|region regions IH]; intros st; [done|].
  cbn [aggregate fmap list_fmap concat]. rewrite run_calls_app, visit_region_calls.
  destruct (run_calls _ st) as [st' [e|]]; [done|]. apply IH.
Qed.

Lemma run_calls_isolated calls rows out :
  Forall remote_failure_only calls ->
  run_calls calls (rows, out)
  = ((rows ++ concat (call_records <$> calls), out ++ concat (call_warnings <$> calls)), None).
Proof.
  intros Hf. revert rows out. induction Hf as [|c calls Hc _ IH]; intros rows out.
  - simpl. by rewrite !app_nil_r.
  - destruct c as [what region g]. cbn [run_calls call_what call_region call_result].
    rewrite (extend_isolated what region g rows out Hc). cbn [fmap list_fmap concat].
    rewrite IH. by rewrite <- !app_assoc.
Qed.

Lemma run_calls_foreign pre c post e rows out :
  Forall remote_failure_only pre ->
  snd (call_result c) = Some e -> is_boto_error e = false ->
  run_calls (pre ++ c :: post) (rows, out)
  = ((rows ++ concat (call_records <$> pre) ++ call_records c,
      out ++ concat (call_warnings <$> pre)), Some e).
Proof.
  intros Hpre He Hb. rewrite run_calls_app, (run_calls_isolated pre rows out Hpre).
  destruct c as [what region [rs oe]]. simpl in He. subst oe.
  cbn [run_calls call_what call_region call_result]. unfold extend.
  cbn [call_result call_records fst]. rewrite Hb.
  by rewrite <- app_assoc.
Qed.

(** An enumerator call that ends with an exception other than a
    [BotoCoreError] or a [ClientError] ends the run with that exception:
    no file is written, the later calls are not made, and the console
    holds the warnings of the earlier calls only.  For an exception that
    derives from [Exception] the exit status is 1. *)
Theorem foreign_exception_aborts (w : world) (a : args) (s : session)
    (cutoff_dt : datetime) (regions : list string)
    (pre post : list call) (c : call) (e : exn) :
  build_session w (profile a) = Ok s ->
  cutoff_of (now_utc w) (days a) = Ok cutoff_dt ->
  resolve_regions a s = inr regions ->
  all_calls a s cutoff_dt regions = pre ++ c :: post ->
  Forall remote_failure_only pre ->
  snd (call_result c) = Some e -> is_boto_error e = false ->
  main w a = mk_outcome (concat (call_warnings <$> pre)) None (Traceback e) /\
  (is_Exception e = true -> exit_status (main w a) = 1).
Proof.
  intros Hs Hc Hr Hcalls Hpre He Hb.
  assert (main w a = mk_outcome (concat (call_warnings <$> pre)) None (Traceback e)) as ->;
    [|done].
  unfold main. rewrite Hs, Hc, Hr, aggregate_calls, Hcalls.
  by rewrite (run_calls_foreign pre c post e [] [] Hpre He Hb).
Qed.

Lemma foreign_exception_aborts_witness :
  main (sample_world unexpected) sample_all_regions
    = mk_outcome
        (concat (call_warnings
                   <$> calls_for sample_all_regions (sample_session unexpected)
                         sample_cutoff "eu-west-1"))
        None (Traceback unexpected) /\
  (is_Exception unexpected = true ->
   exit_status (main (sample_world unexpected) sample_all_regions) = 1).
Proof.
  apply (foreign_exception_aborts (sample_world unexpected) sample_all_regions
           (sample_session unexpected) sample_cutoff
           ["eu-west-1"%string; "us-east-1"%string]
           (calls_for sample_all_regions (sample_session unexpected) sample_cutoff "eu-west-1")
           [mk_call "RDS DB snapshots" "us-east-1" ([], None);
            mk_call "RDS cluster snapshots" "us-east-1" ([], None)]
           (mk_call "EBS snapshots" "us-east-1"
              (get_ebs_snapshots (sample_session unexpected) "us-east-1" sample_cutoff))
           unexpected).
  - reflexivity.
  - vm_compute. reflexivity.
  - vm_compute. reflexivity.
  - vm_compute. reflexivity.
  - vm_compute. repeat constructor; intros e [=].
  - vm_compute. reflexivity.
  - reflexivity.
Defined.

(** When the output file cannot be written the run ends with the message
    "Failed to write output file <path>: <error>" and exit status 1; the
    warnings already printed stay on the console and no summary line
    follows them. *)
Theorem write_failure_is_fatal (w : world) (a : args) (s : session)
    (cutoff_dt : datetime) (regions : list string) (msg : string) :
  build_session w (profile a) = Ok s ->
  cutoff_of (now_utc w) (days a) = Ok cutoff_dt ->
  resolve_regions a s = inr regions ->
  Forall remote_failure_only (all_calls a s cutoff_dt regions) ->
  open_for_write w (output a) = Some msg ->
  main w a
  = mk_outcome (concat (call_warnings <$> all_calls a s cutoff_dt regions)) None
      (SystemExit ("Failed to write output file " +:+ output a +:+ ": " +:+ msg)) /\
  exit_status (main w a) = 1.
Proof.
  intros Hs Hc Hr Hf Ho.
  assert (main w a
          = mk_outcome (concat (call_warnings <$> all_calls a s cutoff_dt regions)) None
              (SystemExit ("Failed to write output file " +:+ output a +:+ ": " +:+ msg)))
    as ->; [|done].
  unfold main. rewrite Hs, Hc, Hr, (aggregate_isolated _ _ _ _ _ _ Hf).
  unfold report. by rewrite Ho.
Qed.

Lemma write_failure_is_fatal_witness :
  exit_status (main read_only_world sample_all_regions) = 1.
Proof.
  apply (write_failure_is_fatal read_only_world sample_all_regions (sample_session throttled) sample_cutoff
           ["eu-west-1"%string; "us-east-1"%string] "Permission denied").
  - reflexivity.
  - vm_compute. reflexivity.
  - vm_compute. reflexivity.
  - vm_compute. repeat constructor; intros e [= <-]; reflexivity.
  - reflexivity.
Defined.

Lemma sort_rows_length rows : length (sort_rows rows) = length rows.
Proof. by rewrite sort_rows_perm. Qed.

(** On a successful run the console holds the warnings, in the order of
    the calls, then one summary line whose count is the number of records
    produced by all the calls together, which is the number of records
    written. *)
Theorem console_of_successful_run (w : world) (a : args) (s : session)
    (cutoff_dt : datetime) (regions : list string) :
  build_session w (profile a) = Ok s ->
  cutoff_of (now_utc w) (days a) = Ok cutoff_dt ->
  resolve_regions a s = inr regions ->
  open_for_write w (output a) = None ->
  Forall remote_failure_only (all_calls a s cutoff_dt regions) ->
  stdout (main w a)
  = concat (call_warnings <$> all_calls a s cutoff_dt regions)
    ++ ["Wrote "
        +:+ pretty (length (concat (call_records <$> all_calls a s cutoff_dt regions)))
        +:+ " records to " +:+ output a].
Proof.
  intros Hs Hc Hr Ho Hf.
  unfold main. rewrite Hs, Hc, Hr, (aggregate_isolated _ _ _ _ _ _ Hf).
  unfold report. rewrite Ho. cbn [stdout app]. unfold wrote_line.
  by rewrite sort_rows_length.
Qed.

Lemma console_of_successful_run_witness :
  stdout (main (sample_world throttled) sample_all_regions)
  = concat (call_warnings
              <$> all_calls sample_all_regions (sample_session throttled) sample_cutoff
                    ["eu-west-1"%string; "us-east-1"%string])
    ++ ["Wrote "
        +:+ pretty (length (concat (call_records
              <$> all_calls sample_all_regions (sample_session throttled) sample_cutoff
                    ["eu-west-1"%string; "us-east-1"%string])))
        +:+ " records to " +:+ output sample_all_regions].
Proof.
  apply (console_of_successful_run (sample_world throttled) sample_all_regions
           (sample_session throttled) sample_cutoff
           ["eu-west-1"%string; "us-east-1"%string]).
  - reflexivity.
  - vm_compute. reflexivity.
  - vm_compute. reflexivity.
  - reflexivity.
  - vm_compute. repeat constructor; intros e [= <-]; reflexivity.
Defined.
End AggregatorExtras.

(** ** Regions, services and sessions *)

Section MainExtras.
Import ExtractSnapshots.

Lemma resolve_regions_same (a : args) (s s' : session) :
  region_name s = region_name s' -> ec2_client s None = ec2_client s' None ->
  describe_regions s = describe_regions s' ->
  resolve_regions a s = resolve_regions a s'.
Proof.
  intros H1 H2 H3. unfold resolve_regions, list_opted_in_regions.
  by rewrite H1, H2, H3.
Qed.

Lemma main_same_calls (w w' : world) (a : args) (s s' : session) :
  build_session w (profile a) = Ok s -> build_session w' (profile a) = Ok s' ->
  now_utc w = now_utc w' -> (forall p, open_for_write w p = open_for_write w' p) ->
  resolve_regions a s = resolve_regions a s' ->
  (forall c region, calls_for a s c region = calls_for a s' c region) ->
  main w a = main w' a.
Proof.
  intros Hs Hs' Hn Ho Hr Hc. unfold main. rewrite Hs, Hs', Hn, Hr.
  destruct (cutoff_of (now_utc w') (days a)) as [cutoff_dt|]; [|done].
  destruct (resolve_regions a s') as [|regions]; [done|].
  rewrite !aggregate_calls. unfold all_calls.
  replace (calls_for a s cutoff_dt <$> regions) with (calls_for a s' cutoff_dt <$> regions)
    by (apply list_fmap_ext; intros; by rewrite Hc).
  destruct (run_calls _ _) as [[rows out] [e|]]; [done|].
  unfold report. by rewrite Ho.
Qed.

(** With [--service ebs] the run never touches the database service: two
    sessions that agree on the region listing and on block storage give
    the same outcome whatever their database answers.  With
    [--service rds] it never lists block-storage snapshots. *)
Theorem service_selects_the_calls (w w' : world) (a : args) (s s' : session) :
  build_session w (profile a) = Ok s -> build_session w' (profile a) = Ok s' ->
  now_utc w = now_utc w' -> (forall p, open_for_write w p = open_for_write w' p) ->
  (service_of a = ebs -> same_ec2 s s' -> main w a = main w' a) /\
  (service_of a = rds -> same_rds s s' -> main w a = main w' a).
Proof.
  intros Hs Hs' Hn Ho. split.
  - intros Hsv (H1 & H2 & H3 & H4).
    apply (main_same_calls w w' a s s'); try done.
    + by apply resolve_regions_same.
    + intros c region. unfold calls_for, include_ebs, include_rds. rewrite Hsv.
      unfold get_ebs_snapshots. by rewrite H2, H4.
  - intros Hsv (H1 & H2 & H3 & H4 & H5 & H6).
    apply (main_same_calls w w' a s s'); try done.
    + by apply resolve_regions_same.
    + intros c region. unfold calls_for, include_ebs, include_rds. rewrite Hsv.
      unfold get_rds_instance_snapshots, get_rds_cluster_snapshots.
      by rewrite H3, H5, H6.
Qed.

Lemma service_selects_the_calls_witness :
  main scenario_world scenario_args = main scenario_world_no_rds scenario_args.
Proof.
  apply (proj1 (service_selects_the_calls scenario_world scenario_world_no_rds
                  scenario_args scenario_session scenario_session_no_rds
                  eq_refl eq_refl eq_refl (fun _ => eq_refl)));
    [reflexivity|]. repeat split.
Defined.

Lemma sorted_set_ext (l l' : list string) :
  (forall x, x ∈ l <-> x ∈ l') -> sorted_set l = sorted_set l'.
Proof.
  intros H. unfold sorted_set. f_equal. f_equal. apply set_eq. intros x.
  by rewrite !elem_of_list_to_set.
Qed.

Lemma sorted_set_nil : sorted_set [] = [].
Proof. unfold sorted_set. by rewrite list_to_set_nil, elements_empty. Qed.

(** The regions resolved under [--all-regions] depend only on which
    region names the listing marks as available: the order of its
    entries, repeated entries and entries that are filtered out make no
    difference. *)
Theorem region_listing_order_irrelevant (s s' : session)
    (entries entries' : list region_entry) :
  ec2_client s None = None -> ec2_client s' None = None ->
  describe_regions s = Ok (Some entries) -> describe_regions s' = Ok (Some entries') ->
  (forall x, (exists e, e ∈ entries /\ region_kept e = true /\ RegionName e = Some x)
             <-> (exists e, e ∈ entries' /\ region_kept e = true /\ RegionName e = Some x)) ->
  list_opted_in_regions s = list_opted_in_regions s'.
Proof.
  intros Hc Hc' Hd Hd' Hx. unfold list_opted_in_regions. rewrite Hc, Hc', Hd, Hd'.
  f_equal. apply sorted_set_ext. intros x. rewrite !list_elem_of_omap.
  assert (forall l : list region_entry, (exists e, e ∈ l /\ (if region_kept e then RegionName e else None) = Some x)
                    <-> (exists e, e ∈ l /\ region_kept e = true /\ RegionName e = Some x)) as Hk.
  { intros l. split; intros (e & He & H); exists e; (split; [done|]).
    - by destruct (region_kept e).
    - destruct H as [-> ?]. done. }
  by rewrite !Hk.
Qed.

Lemma region_listing_order_irrelevant_witness :
  list_opted_in_regions (sample_session throttled)
  = list_opted_in_regions tidy_listing_session.
Proof.
  apply (region_listing_order_irrelevant (sample_session throttled) tidy_listing_session
           _ _ eq_refl eq_refl eq_refl eq_refl).
  intros x. split; intros (e & He & Hk & Hn).
  - apply list_elem_of_In in He. simpl in He.
    destruct He as [<-|[<-|[<-|[<-|[]]]]]; try discriminate Hk;
      [exists (mk_region (Some "us-east-1"%string) None)
      |exists (mk_region (Some "eu-west-1"%string) None)
      |exists (mk_region (Some "us-east-1"%string) None)];
      (split; [apply list_elem_of_In; simpl; tauto|split; [reflexivity|exact Hn]]).
  - apply list_elem_of_In in He. simpl in He.
    destruct He as [<-|[<-|[]]];
      [exists (mk_region (Some "eu-west-1"%string) (Some "opted-in"%string))
      |exists (mk_region (Some "us-east-1"%string) None)];
      (split; [apply list_elem_of_In; simpl; tauto|split; [reflexivity|exact Hn]]).
Defined.

(** How a failing region listing ends the run: a [BotoCoreError] or a
    [ClientError] of the listing call is reported as "Failed to list
    regions: <error>"; an exception raised while building the client,
    which happens outside the guarded block, is reported with its own
    text; an exception that is not an [Exception] passes through. *)
Theorem region_listing_errors (a : args) (s : session) (e : exn) :
  all_regions a = true ->
  (ec2_client s None = Some e -> is_Exception e = true ->
     resolve_regions a s = inl (SystemExit (exn_str e))) /\
  (ec2_client s None = None -> describe_regions s = Raise e -> is_boto_error e = true ->
     resolve_regions a s = inl (SystemExit ("Failed to list regions: " +:+ exn_str e))) /\
  (ec2_client s None = None -> describe_regions s = Raise e -> is_boto_error e = false ->
     is_Exception e = true ->
     resolve_regions a s = inl (SystemExit (exn_str e))) /\
  ((ec2_client s None = Some e \/
    (ec2_client s None = None /\ describe_regions s = Raise e)) ->
   is_Exception e = false ->
     resolve_regions a s = inl (Traceback e)).
Proof.
  intros Ha. unfold resolve_regions, list_opted_in_regions. rewrite Ha.
  split; [|split; [|split]].
  - intros -> ->. done.
  - intros -> -> ->. done.
  - intros -> -> -> ->. done.
  - intros [->|[-> ->]] Hx.
    + by rewrite Hx.
    + destruct e as [[] msg]; try discriminate Hx. done.
Qed.

Lemma region_listing_errors_witness :
  resolve_regions sample_all_regions failing_listing_session
  = inl (SystemExit ("Failed to list regions: " +:+ exn_str throttled)).
Proof.
  apply (proj1 (proj2 (region_listing_errors sample_all_regions failing_listing_session
                         throttled eq_refl))); reflexivity.
Defined.

(** When the listing offers no available region, the run makes no call,
    writes an empty file and reports zero records, with exit status 0. *)
Theorem empty_listing_writes_empty_file (w : world) (a : args) (s : session)
    (cutoff_dt : datetime) (resp : option (list region_entry)) :
  build_session w (profile a) = Ok s ->
  cutoff_of (now_utc w) (days a) = Ok cutoff_dt ->
  all_regions a = true -> ec2_client s None = None ->
  describe_regions s = Ok resp ->
  Forall (fun e => region_kept e = false) (match resp with Some l => l | None => [] end) ->
  open_for_write w (output a) = None ->
  main w a = mk_outcome ["Wrote 0 records to " +:+ output a]
               (Some (output a, EmptyString)) Returns.
Proof.
  intros Hs Hc Ha He Hd Hk Ho.
  assert (resolve_regions a s = inr []) as Hr.
  { unfold resolve_regions, list_opted_in_regions. rewrite Ha, He, Hd.
    replace (omap _ _) with (@nil string); [by rewrite sorted_set_nil|].
    symmetry. induction Hk as [|x l Hx _ IH]; [done|].
    cbn [omap list_omap]. by rewrite Hx. }
  unfold main. rewrite Hs, Hc, Hr. cbn [aggregate]. unfold report. rewrite Ho.
  reflexivity.
Qed.

Lemma empty_listing_writes_empty_file_witness :
  main empty_listing_world sample_all_regions
  = mk_outcome ["Wrote 0 records to " +:+ output sample_all_regions]
      (Some (output sample_all_regions, EmptyString)) Returns.
Proof.
  apply (empty_listing_writes_empty_file empty_listing_world sample_all_regions
           empty_listing_session sample_cutoff
           (Some [mk_region (Some "ap-east-1"%string) (Some "not-opted-in"%string);
                  mk_region None None]));
    first [reflexivity | vm_compute; reflexivity | repeat constructor].
Defined.

(** A session that cannot be created ends either script with "Failed to
    create AWS session: <error>" and exit status 1, before anything is
    asked of the service, printed or written; an empty profile name is
    the same as none. *)
Theorem session_failure_is_fatal (w : world) (e : exn) :
  is_Exception e = true ->
  (forall a, build_session w (profile a) = Raise e ->
     main w a = mk_outcome [] None
                  (SystemExit ("Failed to create AWS session: " +:+ exn_str e))) /\
  (forall a, build_session w (ListEbsSnapshots.profile a) = Raise e ->
     ListEbsSnapshots.main w a
     = mk_outcome [] None
         (SystemExit ("Failed to create AWS session: " +:+ exn_str e))) /\
  build_session w (Some EmptyString) = build_session w None.
Proof.
  intros He. split; [|split].
  - intros a H. unfold main, session_failure. by rewrite H, He.
  - intros a H. unfold ListEbsSnapshots.main, session_failure. by rewrite H, He.
  - done.
Qed.

Lemma session_failure_is_fatal_witness :
  main no_profile_world sample_all_regions
  = mk_outcome [] None (SystemExit "Failed to create AWS session: ProfileNotFound").
Proof.
  apply (proj1 (session_failure_is_fatal no_profile_world
                  (Exn BotoCoreError "ProfileNotFound") eq_refl)).
  reflexivity.
Defined.
End MainExtras.

(** ** The listing script and tags *)

Section ListingExtras.
Import ListEbsSnapshots.

(** In [list_ebs_snapshots.py] a remote failure is fatal.  A
    [BotoCoreError] or [ClientError] during the pagination ends the run
    with "Failed to list EBS snapshots in <region>: <error>", the records
    already fetched being neither printed nor written; an exception raised
    while building the client, which happens before the guarded block,
    passes through as it is, whatever its class. *)
Theorem listing_failure_is_fatal (w : world) (a : args) (s : session) (e : exn) :
  build_session w (profile a) = Ok s ->
  (ec2_client s (Some (region a)) = Some e ->
     main w a = mk_outcome [] None (Traceback e)) /\
  (ec2_client s (Some (region a)) = None ->
   never_fails ebs_item (all_items (pages (describe_snapshots s (region a)))) ->
   failure (describe_snapshots s (region a)) = Some e ->
   is_boto_error e = true ->
     main w a
     = mk_outcome [] None
         (SystemExit ("Failed to list EBS snapshots in " +:+ region a +:+ ": "
                      +:+ exn_str e))).
Proof.
  intros Hs. unfold main. rewrite Hs. split.
  - intros ->. done.
  - intros -> Hn Hf Hb. rewrite (run_pages_never_fails ebs_item _ _ Hn), Hf.
    by rewrite Hb.
Qed.

Lemma listing_failure_is_fatal_witness :
  main (sample_world throttled) list_args_file
  = mk_outcome [] None
      (SystemExit "Failed to list EBS snapshots in us-east-1: Throttling").
Proof.
  apply (proj2 (listing_failure_is_fatal (sample_world throttled) list_args_file
                  (sample_session throttled) throttled eq_refl)).
  - reflexivity.
  - unfold never_fails.
    replace (all_items (pages (describe_snapshots (sample_session throttled)
                                 (region list_args_file))))
      with [sample_multiline] by (vm_compute; reflexivity).
    repeat constructor. intros e. vm_compute. discriminate.
  - reflexivity.
  - reflexivity.
Defined.


End ListingExtras.

Section TagExtras.

(** Among the tags of a snapshot the first one whose key is "Name"
    decides: tags before it with other keys and all tags after it, also
    further "Name" tags, have no influence on the display name; without
    any "Name" tag the name comes from the description and the
    identifier. *)
Theorem first_name_tag_decides (start : pyval) (description snapshot_id : option string)
    (pre post : list tag) (t : tag) :
  Forall (fun t' => Key t' <> Some "Name"%string) pre ->
  (Key t = Some "Name"%string ->
     name_tag_of (pre ++ t :: post) = Value t /\
     ebs_display_name (mk_ebs start (Some (pre ++ t :: post)) description snapshot_id)
     = ebs_display_name (mk_ebs start (Some [t]) description snapshot_id)) /\
  (name_tag_of pre = None /\
   ebs_display_name (mk_ebs start (Some pre) description snapshot_id)
   = ebs_display_name (mk_ebs start None description snapshot_id)).
Proof.
  intros Hpre.
  assert (forall rest, name_tag_of (pre ++ rest) = name_tag_of rest) as Hskip.
  { intros rest. induction Hpre as [|x l Hx _ IH]; [done|].
    simpl. by rewrite decide_False. }
  split.
  - intros Hk.
    assert (name_tag_of (pre ++ t :: post) = Value t) as Hv.
    { rewrite Hskip. simpl. by rewrite decide_True. }
    split; [exact Hv|]. unfold ebs_display_name. cbn [Tags Description SnapshotId].
    rewrite Hv. simpl. by rewrite decide_True.
  - assert (name_tag_of pre = None) as Hv.
    { rewrite <- (app_nil_r pre). by rewrite Hskip. }
    split; [exact Hv|]. unfold ebs_display_name. cbn [Tags Description SnapshotId].
    by rewrite Hv.
Qed.

Lemma first_name_tag_decides_witness :
  ebs_display_name
    (mk_ebs PyNone
       (Some ([mk_tag (Some "Owner"%string) (Some "ops"%string)]
              ++ mk_tag (Some "Name"%string) (Some EmptyString)
              :: [mk_tag (Some "Name"%string) (Some "second"%string)]))
       (Some "nightly"%string) None)
  = ebs_display_name
      (mk_ebs PyNone (Some [mk_tag (Some "Name"%string) (Some EmptyString)])
         (Some "nightly"%string) None).
Proof.
  apply (proj1 (first_name_tag_decides PyNone (Some "nightly"%string) None
                  [mk_tag (Some "Owner"%string) (Some "ops"%string)]
                  [mk_tag (Some "Name"%string) (Some "second"%string)]
                  (mk_tag (Some "Name"%string) (Some EmptyString))
                  ltac:(repeat constructor; discriminate))).
  reflexivity.
Defined.
End TagExtras.

(** * Worked scenarios *)

Example ord2ymd_leap_day :
  Calendar.ord2ymd (Calendar.ymd2ord 2024 2 29) = (2024, 2, 29).
Proof. reflexivity. Qed.

Example strftime_year_of_four_digits :
  strftime_iso (mk_datetime 2024 2 9 7 5 9 123 0) = "2024-02-09T07:05:09Z"%string.
Proof. reflexivity. Qed.

Example strftime_year_of_three_digits :
  strftime_iso small_year = "987-02-09T07:05:09Z"%string.
Proof. reflexivity. Qed.

Example strftime_year_of_one_digit :
  strftime_iso (mk_datetime 7 12 31 23 59 59 0 0) = "7-12-31T23:59:59Z"%string.
Proof. reflexivity. Qed.

Example astimezone_crosses_midnight :
  astimezone_utc (mk_datetime 2024 3 1 1 30 0 0 7200000000)
  = Ok (mk_datetime 2024 2 29 23 30 0 0 0).
Proof. vm_compute. reflexivity. Qed.

Example astimezone_out_of_range :
  astimezone_utc (mk_datetime 1 1 1 0 0 0 0 3600000000)
  = Raise (Exn OverflowError "date value out of range").
Proof. vm_compute. reflexivity. Qed.

(** An item whose conversion to UTC overflows stops the enumeration where
    it stands: the older snapshot after it gets no record. *)
Example overflow_hides_later_items :
  run_pages (ExtractSnapshots.ebs_item sample_cutoff)
    [Some [sample_out_of_range; sample_old]] None
  = ([], Some (Exn OverflowError "date value out of range")).
Proof. vm_compute. reflexivity. Qed.

(** Block storage only, cutoff 30 days: one line, for the older snapshot. *)
Example end_to_end_scenario :
  ExtractSnapshots.main scenario_world
    (ExtractSnapshots.mk_args None None false ExtractSnapshots.ebs 30 "out.txt")
  = mk_outcome ["Wrote 1 records to out.txt"%string]
      (Some ("out.txt"%string, "backup-a" +:+ TAB +:+ "2024-04-22T12:00:00Z" +:+ NEWLINE))
      Returns.
Proof. vm_compute. reflexivity. Qed.

(** Both services: equal timestamps, so the two lines are ordered by name. *)
Example multi_kind_merge_scenario :
  written (ExtractSnapshots.main scenario_world
             (ExtractSnapshots.mk_args None None false ExtractSnapshots.both 30 "out.txt"))
  = Some ("out.txt"%string,
          ("aurora-1" +:+ TAB +:+ "2024-04-22T12:00:00Z" +:+ NEWLINE)
          +:+ ("backup-a" +:+ TAB +:+ "2024-04-22T12:00:00Z" +:+ NEWLINE)).
Proof. vm_compute. reflexivity. Qed.

(** The listing script reports both snapshots, oldest first. *)
Example list_ebs_scenario :
  stdout (ListEbsSnapshots.main scenario_world
            (ListEbsSnapshots.mk_args None "us-east-1" None))
  = ["backup-a" +:+ TAB +:+ "2024-04-22T12:00:00Z";
     "snap-123" +:+ TAB +:+ "2024-05-22T12:00:00Z"].
Proof. vm_compute. reflexivity. Qed.
